(** * BeurerScaleManager: the database utilities of [BSM::Utils]

    A shallow embedding of the table manager and of the schema version
    registry of [utils.cpp] ([isTablePresent], [createTable], [dropTable],
    [getTableVersion], [setTableVersion], [executeQuery]) together with the
    properties the specification states about them.

    The functions talk to SQLite through Qt's [QSqlDatabase] and [QSqlQuery].
    That driver is not part of the repository: it is an interface here
    ([QtSql]), the functions are written once over it, and what is
    assumed of SQLite is collected in one place ([SqliteLaws]).  A small
    executable driver ([Toy]) implements the interface and satisfies the
    laws, so that every statement can be run on concrete inputs.  A second
    one ([Loose]) also reads comments and [CREATE TABLE ... AS SELECT], as
    SQLite does, and shows what table names that are not identifiers do.

    The start-up functions of the same file ([loadTranslation],
    [checkUserDirectory], [getSavingDirectory], [openDdAndCheckTables]) are
    embedded over a second interface ([Desktop]) for the file system, the
    dialogs and the translators. *)

From Stdlib Require Import String Ascii List ZArith Bool Lia Arith.
Import ListNotations.

Local Open Scope string_scope.
Local Open Scope Z_scope.

(* ===================================================================== *)
(** ** Qt strings *)
(* ===================================================================== *)

Module QStr.

(** [QChar::digitValue] on the ASCII digits. *)
Definition digitValue (c : ascii) : option nat :=
  let n := nat_of_ascii c in
  if (Nat.leb 48 n && Nat.leb n 57)%bool then Some (n - 48)%nat else None.

(** A format string cut into plain characters and place markers
    ([%1] .. [%99], also written [%L1] .. [%L99]); a marker remembers the
    text it was written as. *)
Inductive Piece : Type :=
| Lit (c : ascii)
| Esc (n : nat) (text : string).

Definition str1 (a : ascii) : string := String a EmptyString.
Definition str2 (a b : ascii) : string := String a (str1 b).
Definition str3 (a b c : ascii) : string := String a (str2 b c).
Definition str4 (a b c d : ascii) : string := String a (str3 b c d).

(** The scan of [findArgEscapes]: after a percent sign an optional [L],
    then one or two digits; when no digit follows, the scan resumes at the
    character that was not a digit. *)
Fixpoint scan (s : string) : list Piece :=
  match s with
  | EmptyString => []
  | String c r0 =>
      if Ascii.eqb c "%" then
        match r0 with
        | EmptyString => [Lit c]
        | String c1 r1 =>
            if Ascii.eqb c1 "L" then
              match r1 with
              | EmptyString => [Lit c; Lit c1]
              | String c2 r2 =>
                  match digitValue c2 with
                  | None => Lit c :: Lit c1 :: scan r1
                  | Some d =>
                      match r2 with
                      | EmptyString => [Esc d (str3 c c1 c2)]
                      | String c3 r3 =>
                          match digitValue c3 with
                          | Some d' => Esc (10 * d + d') (str4 c c1 c2 c3) :: scan r3
                          | None => Esc d (str3 c c1 c2) :: scan r2
                          end
                      end
                  end
              end
            else
              match digitValue c1 with
              | None => Lit c :: scan r0
              | Some d =>
                  match r1 with
                  | EmptyString => [Esc d (str2 c c1)]
                  | String c2 r2 =>
                      match digitValue c2 with
                      | Some d' => Esc (10 * d + d') (str3 c c1 c2) :: scan r2
                      | None => Esc d (str2 c c1) :: scan r1
                      end
                  end
              end
        end
      else Lit c :: scan r0
  end.

(** The lowest marker number of a format string, if it has a marker. *)
Fixpoint min_escape (ps : list Piece) : option nat :=
  match ps with
  | [] => None
  | Lit _ :: ps' => min_escape ps'
  | Esc n _ :: ps' =>
      match min_escape ps' with
      | None => Some n
      | Some m => Some (Nat.min n m)
      end
  end.

(** [replaceArgEscapes]: every marker with number [m] becomes [a], the
    other markers stay as they were written. *)
Fixpoint render (m : nat) (a : string) (ps : list Piece) : string :=
  match ps with
  | [] => EmptyString
  | Lit c :: ps' => String c (render m a ps')
  | Esc n text :: ps' =>
      (if Nat.eqb n m then a else text) ++ render m a ps'
  end.

(** [QString::arg(const QString&)]: replaces every occurrence of the
    lowest-numbered place marker; a string without a marker is returned
    unchanged. *)
Definition arg (s a : string) : string :=
  match min_escape (scan s) with
  | None => s
  | Some m => render m a (scan s)
  end.

(** [QStringList::join]. *)
Definition join (sep : string) (l : list string) : string :=
  String.concat sep l.

(** [QStringList::indexOf]: position of the first exact match, [-1] when
    there is none. *)
Fixpoint indexOf_from (l : list string) (x : string) (i : Z) : Z :=
  match l with
  | [] => -1
  | y :: l' => if String.eqb y x then i else indexOf_from l' x (i + 1)
  end.

Definition indexOf (l : list string) (x : string) : Z := indexOf_from l x 0.

End QStr.

(* ===================================================================== *)
(** ** Qt variants and C integers *)
(* ===================================================================== *)

(** The [QVariant] kinds that travel between this code and the driver. *)
Inductive QVariant : Type :=
| QV_Invalid
| QV_Int (i : Z)
| QV_LongLong (l : Z)
| QV_String (s : string).

Definition QVariant_isValid (v : QVariant) : bool :=
  match v with
  | QV_Invalid => false
  | _ => true
  end.

(** Range of a C [int] and the value an [unsigned int] takes when it is
    assigned to an [int]. *)
Definition int_range (z : Z) : Prop := - 2 ^ 31 <= z < 2 ^ 31.

Definition uint_of_Z (z : Z) : Z := z mod 2 ^ 32.

Definition int_of_uint (u : Z) : Z := if u <? 2 ^ 31 then u else u - 2 ^ 32.

(** A row of a result set, read by field name ([QSqlRecord::value]); a
    field the record does not have reads as the invalid variant. *)
Definition QSqlRecord : Type := string -> QVariant.

Definition Bindings : Type := list (string * QVariant).

(* ===================================================================== *)
(** ** The SQL driver behind [QSqlDatabase] and [QSqlQuery] *)
(* ===================================================================== *)

(** What [utils.cpp] calls on Qt's SQL module.  A statement that fails
    leaves the database as it was, so [QSqlQuery_exec_result] returns the
    new database only on success.  [registry_row] is not called by the code:
    it is the view of the stored database the specification speaks of, the
    [version] value of the row of the version registry whose key is the
    given table name. *)
Class QtSql : Type := {
  QSqlDatabase : Type;
  QSqlDatabase_tables : QSqlDatabase -> list string;
  QSqlQuery_prepare_ok : QSqlDatabase -> string -> bool;
  QSqlQuery_exec_result :
    QSqlDatabase -> string -> Bindings -> option (QSqlDatabase * list QSqlRecord);
  QString_toULongLong : string -> Z * bool;
  registry_row : QSqlDatabase -> string -> option QVariant
}.

Inductive LogLevel : Type := LogDebug | LogWarning | LogCritical.

(** One line written through [qDebug()], [qWarning()] or [qCritical()]:
    the items streamed into it, in order. *)
Definition LogLine : Type := (LogLevel * list string)%type.

(** The calls made on the driver, in the order they are made. *)
Inductive DriverCall : Type :=
| CallTables
| CallPrepare (sql : string)
| CallExec (sql : string) (bound : Bindings).

Section Utils.

Context {D : QtSql}.

(** [QVariant::toUInt(bool *ok)]: the converted value and the [ok] flag.
    Numbers are converted by a C cast, without a range check. *)
Definition QVariant_toUInt (v : QVariant) : Z * bool :=
  match v with
  | QV_Invalid => (0, false)
  | QV_Int i => (uint_of_Z i, true)
  | QV_LongLong l => (uint_of_Z l, true)
  | QV_String s => let (n, ok) := QString_toULongLong s in (uint_of_Z n, ok)
  end.

(** The process: the global [db], the driver calls made so far and the
    lines logged so far. *)
Record World : Type := mkWorld {
  db : QSqlDatabase;
  calls : list DriverCall;
  log : list LogLine
}.

Definition M (A : Type) : Type := World -> A * World.

Definition ret {A : Type} (a : A) : M A := fun w => (a, w).

Definition bind {A B : Type} (c : M A) (k : A -> M B) : M B :=
  fun w => let (a, w') := c w in k a w'.

Definition record_call (c : DriverCall) (w : World) : World :=
  mkWorld (db w) (calls w ++ [c])%list (log w).

Definition write_log (lvl : LogLevel) (items : list string) : M unit :=
  fun w => (tt, mkWorld (db w) (calls w) (log w ++ [(lvl, items)])%list).

Definition qDebug : list string -> M unit := write_log LogDebug.
Definition qWarning : list string -> M unit := write_log LogWarning.

(** [db.tables()]. *)
Definition db_tables : M (list string) :=
  fun w => (QSqlDatabase_tables (db w), record_call CallTables w).

(** A [QSqlQuery] object: its statement, the values bound to it, the rows
    of its result set after the cursor and the row under the cursor. *)
Record QSqlQuery : Type := mkQuery {
  q_sql : string;
  q_bound : Bindings;
  q_rows : list QSqlRecord;
  q_at : option QSqlRecord
}.

(** [QSqlQuery query(db);] *)
Definition QSqlQuery_new : QSqlQuery := mkQuery EmptyString [] [] None.

(** [query.prepare(sql)]. *)
Definition QSqlQuery_prepare (q : QSqlQuery) (sql : string)
  : M (bool * QSqlQuery) :=
  fun w =>
    ((QSqlQuery_prepare_ok (db w) sql, mkQuery sql [] [] None),
     record_call (CallPrepare sql) w).

(** [query.bindValue(placeholder, value)]. *)
Definition QSqlQuery_bindValue (q : QSqlQuery) (placeholder : string)
    (v : QVariant) : QSqlQuery :=
  mkQuery (q_sql q)
    (filter (fun b => negb (String.eqb (fst b) placeholder)) (q_bound q)
       ++ [(placeholder, v)])%list
    (q_rows q) (q_at q).

(** [query.exec()]. *)
Definition QSqlQuery_exec (q : QSqlQuery) : M (bool * QSqlQuery) :=
  fun w =>
    let w1 := record_call (CallExec (q_sql q) (q_bound q)) w in
    match QSqlQuery_exec_result (db w) (q_sql q) (q_bound q) with
    | Some (d', rows) =>
        ((true, mkQuery (q_sql q) (q_bound q) rows None),
         mkWorld d' (calls w1) (log w1))
    | None => ((false, mkQuery (q_sql q) (q_bound q) [] None), w1)
    end.

(** [query.next()]. *)
Definition QSqlQuery_next (q : QSqlQuery) : bool * QSqlQuery :=
  match q_rows q with
  | r :: rest => (true, mkQuery (q_sql q) (q_bound q) rest (Some r))
  | [] => (false, mkQuery (q_sql q) (q_bound q) [] None)
  end.

(** [query.record().value(field)]. *)
Definition QSqlQuery_value (q : QSqlQuery) (field : string) : QVariant :=
  match q_at q with
  | Some r => r field
  | None => QV_Invalid
  end.

End Utils.

Declare Scope utils_scope.
Delimit Scope utils_scope with utils.

Notation "x <- c ;; k" := (bind c (fun x => k))
  (at level 61, c at next level, right associativity) : utils_scope.
Notation "' pat <- c ;; k" := (bind c (fun x => match x with pat => k end))
  (at level 61, pat pattern, c at next level, right associativity) : utils_scope.
Notation "c ;; k" := (bind c (fun _ => k))
  (at level 61, right associativity) : utils_scope.

(** [#define VERSION_TABLE_NAME "TablesVersions"] *)
Definition VERSION_TABLE_NAME : string := "TablesVersions".

(** A [ColumnList]: the (name, type clause) pairs of a table, in order. *)
Definition ColumnList : Type := list (string * string).

(** The statement of [openDdAndCheckTables] that creates the registry. *)
Definition ENSURE_VERSION_TABLE_SQL : string :=
  "CREATE TABLE IF NOT EXISTS " ++ VERSION_TABLE_NAME
    ++ " (tableName TEXT PRIMARY KEY, version INTEGER) WITHOUT ROWID;".

(** The statement of [getTableVersion]. *)
Definition SELECT_VERSION_SQL : string :=
  "SELECT version FROM " ++ VERSION_TABLE_NAME
    ++ " WHERE tableName = :tableName;".

(** The statement of [setTableVersion]. *)
Definition INSERT_VERSION_SQL : string :=
  "INSERT OR REPLACE INTO TablesVersions (tableName, version) VALUES (:tableName, :version);".

Section UtilsCode.

Context {D : QtSql}.
Local Open Scope utils_scope.

(** [bool executeQuery(QString sql)] *)
Definition executeQuery (sql : string) : M bool :=
  let query := QSqlQuery_new in
  '(prepared, query) <- QSqlQuery_prepare query sql ;;
  if negb prepared then ret false else
  '(executed, query) <- QSqlQuery_exec query ;;
  if negb executed then ret false else
  ret true.

(** [bool isTablePresent(const QString& tableName)] *)
Definition isTablePresent (tableName : string) : M bool :=
  tables <- db_tables ;;
  ret (QStr.indexOf tables tableName >=? 0).

(** The loop of [createTable]: one ["name clause"] item per column,
    appended to [tmp] in the order of the definition. *)
Definition createTable_items (tableDefinition : ColumnList) : list string :=
  fold_left
    (fun (tmp : list string) (it : string * string) =>
       (tmp ++ [(fst it ++ " " ++ snd it)%string])%list)
    tableDefinition [].

(** The local [sql] of [createTable]. *)
Definition createTable_sql (tableName : string)
    (tableDefinition : ColumnList) : string :=
  QStr.arg (QStr.arg "CREATE TABLE `%1` (%2) WITHOUT ROWID;" tableName)
    (QStr.join ", " (createTable_items tableDefinition)).

(** [bool createTable(const QString& tableName, const ColumnList& tableDefinition)] *)
Definition createTable (tableName : string) (tableDefinition : ColumnList)
  : M bool :=
  let sql := createTable_sql tableName tableDefinition in
  qDebug ["Creating table"; tableName; ":"; sql] ;;
  executeQuery sql.

(** The statement of [dropTable]. *)
Definition dropTable_sql (tableName : string) : string :=
  "DROP TABLE " ++ tableName ++ ";".

(** [bool dropTable(const QString& tableName)]; the [QSqlQuery] it
    declares is never used. *)
Definition dropTable (tableName : string) : M bool :=
  present <- isTablePresent tableName ;;
  if negb present then ret true else
  dropped <- executeQuery (dropTable_sql tableName) ;;
  if dropped then ret true else
  qWarning ["Cannot drop table"; tableName] ;;
  ret false.

(** [int getTableVersion(const QString& tableName)]; the nested tests
    yield [Some retval] where the code returns [retval] and [None] where
    it falls through to the warning. *)
Definition getTableVersion (tableName : string) : M Z :=
  registry <- isTablePresent VERSION_TABLE_NAME ;;
  if negb registry then ret (-1) else
  present <- isTablePresent tableName ;;
  if negb present then ret 0 else
  let query := QSqlQuery_new in
  '(prepared, query) <- QSqlQuery_prepare query SELECT_VERSION_SQL ;;
  found <-
    (if prepared then
       let query := QSqlQuery_bindValue query ":tableName" (QV_String tableName) in
       '(executed, query) <- QSqlQuery_exec query ;;
       if executed then
         let '(has_row, query) := QSqlQuery_next query in
         if has_row then
           let version := QSqlQuery_value query "version" in
           if QVariant_isValid version then
             let '(u, ok) := QVariant_toUInt version in
             let retval := int_of_uint u in
             if ok then ret (Some retval) else ret None
           else ret None
         else ret None
       else ret None
     else ret None) ;;
  match found with
  | Some retval => ret retval
  | None =>
      qWarning ["Cannot find version for table"; tableName] ;;
      ret (-1)
  end.

(** [bool setTableVersion(const QString& tableName, const int tableVersion)] *)
Definition setTableVersion (tableName : string) (tableVersion : Z) : M bool :=
  registry <- isTablePresent VERSION_TABLE_NAME ;;
  if negb registry then ret false else
  present <- isTablePresent tableName ;;
  if negb present then ret false else
  let query := QSqlQuery_new in
  '(prepared, query) <- QSqlQuery_prepare query INSERT_VERSION_SQL ;;
  saved <-
    (if prepared then
       let query := QSqlQuery_bindValue query ":tableName" (QV_String tableName) in
       let query := QSqlQuery_bindValue query ":version" (QV_Int tableVersion) in
       '(executed, query) <- QSqlQuery_exec query ;;
       ret executed
     else ret false) ;;
  if saved then ret true else
  qWarning ["Cannot save version for table"; tableName] ;;
  ret false.

(** The registry step of [openDdAndCheckTables]. *)
Definition ensureVersionTable : M bool :=
  executeQuery ENSURE_VERSION_TABLE_SQL.

End UtilsCode.

(* ===================================================================== *)
(** ** The vocabulary of the specification *)
(* ===================================================================== *)

Module Ident.

Definition in_range (lo hi : nat) (c : ascii) : bool :=
  (Nat.leb lo (nat_of_ascii c) && Nat.leb (nat_of_ascii c) hi)%bool.

Definition is_letter (c : ascii) : bool :=
  (in_range 65 90 c || in_range 97 122 c)%bool.

Definition is_digit (c : ascii) : bool := in_range 48 57 c.

Definition ident_start (c : ascii) : bool :=
  (is_letter c || Ascii.eqb c "_")%bool.

Definition ident_char (c : ascii) : bool :=
  (ident_start c || is_digit c)%bool.

Fixpoint all_chars (p : ascii -> bool) (s : string) : bool :=
  match s with
  | EmptyString => true
  | String c r => (p c && all_chars p r)%bool
  end.

(** The identifier allow-list of the specification (its glossary: a rule
    restricting table and column names to a safe character set): a letter
    or an underscore, then letters, digits and underscores. *)
Definition valid_identifier (s : string) : bool :=
  match s with
  | EmptyString => false
  | String c r => (ident_start c && all_chars ident_char r)%bool
  end.

Definition to_upper (c : ascii) : ascii :=
  if in_range 97 122 c then ascii_of_nat (nat_of_ascii c - 32) else c.

Fixpoint upper (s : string) : string :=
  match s with
  | EmptyString => EmptyString
  | String c r => String (to_upper c) (upper r)
  end.

(** [contains pat s]: [pat] occurs in [s]. *)
Fixpoint contains (pat s : string) : bool :=
  match s with
  | EmptyString => String.prefix pat EmptyString
  | String _ r => (String.prefix pat s || contains pat r)%bool
  end.

(** [ends_with suffix s]. *)
Fixpoint ends_with (suffix s : string) : bool :=
  match s with
  | EmptyString => String.eqb suffix EmptyString
  | String _ r => (String.eqb suffix s || ends_with suffix r)%bool
  end.

End Ident.

(** A well-formed column definition in the sense of the specification: the
    column names are valid identifiers, unique within the sequence. *)
Definition well_formed_columns (cols : ColumnList) : Prop :=
  Forall (fun c => Ident.valid_identifier (fst c) = true) cols
  /\ NoDup (map fst cols).

(** The definition itself designates a primary key: one of its columns
    says [PRIMARY KEY], in any letter case. *)
Definition designates_primary_key (cols : ColumnList) : bool :=
  existsb
    (fun c => Ident.contains "PRIMARY KEY" (Ident.upper (fst c ++ " " ++ snd c)))
    cols.

(** The statement applies the storage convention of the registry table. *)
Definition uses_without_rowid (sql : string) : bool :=
  Ident.ends_with " WITHOUT ROWID;" sql.

(** The SQLite statement that creates a table clustered by its primary key:
    the table name between back quotes, the columns as [name clause] items
    separated by a comma and a space, in the order of the definition. *)
Definition create_table_text (tableName : string) (cols : ColumnList)
  : string :=
  "CREATE TABLE `" ++ tableName ++ "` ("
    ++ String.concat ", " (map (fun c => fst c ++ " " ++ snd c) cols)
    ++ ") WITHOUT ROWID;".

(** The bindings of the two parameterised statements. *)
Definition select_bindings (tableName : string) : Bindings :=
  [(":tableName", QV_String tableName)].

Definition insert_bindings (tableName : string) (version : Z) : Bindings :=
  [(":tableName", QV_String tableName); (":version", QV_Int version)].

(** What is assumed of SQLite behind the driver, for the statements this
    code submits.  Each law speaks of a statement that has succeeded, or
    says when one cannot succeed; none promises a success.  The database
    is one that statements of this code have made: it holds tables, and
    neither views nor temporary tables. *)
Class SqliteLaws (D : QtSql) : Prop := {
  (** a [SELECT] changes nothing; *)
  select_readonly : forall d b d' rows,
    QSqlQuery_exec_result d SELECT_VERSION_SQL b = Some (d', rows) -> d' = d;
  (** a stored row is found by the lookup of [getTableVersion], *)
  select_hit : forall d n v,
    registry_row d n = Some v ->
    QSqlQuery_prepare_ok d SELECT_VERSION_SQL = true
    /\ exists r rest,
         QSqlQuery_exec_result d SELECT_VERSION_SQL (select_bindings n)
         = Some (d, r :: rest)
         /\ r "version" = v;
  (** and where no row is stored the lookup yields no row; *)
  select_miss : forall d n d' rows,
    registry_row d n = None ->
    QSqlQuery_exec_result d SELECT_VERSION_SQL (select_bindings n)
    = Some (d', rows) ->
    rows = [];
  (** [INSERT OR REPLACE] leaves one row for the key, holding the integer as
      SQLite stores it, and touches neither the catalog nor the other rows; *)
  insert_effect : forall d n v d' rows,
    QSqlQuery_exec_result d INSERT_VERSION_SQL (insert_bindings n v)
    = Some (d', rows) ->
    QSqlDatabase_tables d' = QSqlDatabase_tables d
    /\ registry_row d' n = Some (QV_LongLong v)
    /\ forall m, m <> n -> registry_row d' m = registry_row d m;
  (** [CREATE TABLE] adds the table to the catalog and stores no row; *)
  create_effect : forall d n cols d' rows,
    Ident.valid_identifier n = true ->
    well_formed_columns cols ->
    QSqlQuery_exec_result d (create_table_text n cols) [] = Some (d', rows) ->
    (forall m, In m (QSqlDatabase_tables d') <-> m = n \/ In m (QSqlDatabase_tables d))
    /\ forall m, registry_row d' m = registry_row d m;
  (** it is refused for a name the catalog already has; *)
  create_existing : forall d n cols,
    Ident.valid_identifier n = true ->
    well_formed_columns cols ->
    In n (QSqlDatabase_tables d) ->
    QSqlQuery_prepare_ok d (create_table_text n cols) = true ->
    QSqlQuery_exec_result d (create_table_text n cols) [] = None;
  (** [CREATE TABLE IF NOT EXISTS] stores no row; it adds the registry to
      the catalog, or, SQLite comparing table names without regard to
      letter case, it does nothing because the catalog lists a table whose
      name is the registry's in some letter case; *)
  ensure_effect : forall d d' rows,
    QSqlQuery_exec_result d ENSURE_VERSION_TABLE_SQL [] = Some (d', rows) ->
    ((forall m, In m (QSqlDatabase_tables d')
                <-> m = VERSION_TABLE_NAME \/ In m (QSqlDatabase_tables d))
     \/ ((exists t, In t (QSqlDatabase_tables d)
                    /\ Ident.upper t = Ident.upper VERSION_TABLE_NAME)
         /\ forall m, In m (QSqlDatabase_tables d')
                      <-> In m (QSqlDatabase_tables d)))
    /\ forall m, registry_row d' m = registry_row d m;
  (** [DROP TABLE] of a table the catalog lists removes it from the
      catalog; the rows of the registry go with the registry itself and
      stay with any other table. *)
  drop_effect : forall d n d' rows,
    Ident.valid_identifier n = true ->
    In n (QSqlDatabase_tables d) ->
    QSqlQuery_exec_result d ("DROP TABLE " ++ n ++ ";") [] = Some (d', rows) ->
    (forall m, In m (QSqlDatabase_tables d') <-> m <> n /\ In m (QSqlDatabase_tables d))
    /\ forall m, registry_row d' m
                 = if String.eqb n VERSION_TABLE_NAME then None
                   else registry_row d m
}.

(* ===================================================================== *)
(** ** An executable driver *)
(* ===================================================================== *)

(** A driver small enough to run: it knows the five statement shapes this
    code submits and refuses every other text.  Its database is a catalog
    and the rows of the registry. *)
Module Toy.

Record Db : Type := mkDb {
  tables : list string;
  rows : list (string * QVariant)
}.

Inductive Stmt : Type :=
| SEnsure
| SSelect
| SInsert
| SCreate (name : string)
| SDrop (name : string).

(** [strip pre s]: what follows [pre] in [s], when [s] starts with it. *)
Fixpoint strip (pre s : string) : option string :=
  match pre, s with
  | EmptyString, _ => Some s
  | String a pre', String b s' =>
      if Ascii.eqb a b then strip pre' s' else None
  | String _ _, EmptyString => None
  end.

(** The characters of [s] before the first one [stop] accepts, and what
    follows them. *)
Fixpoint split_at (stop : ascii -> bool) (s : string) : string * string :=
  match s with
  | EmptyString => (EmptyString, EmptyString)
  | String c r =>
      if stop c then (EmptyString, s)
      else let (name, tail) := split_at stop r in (String c name, tail)
  end.

(** After [CREATE TABLE `]: a quoted name, which may hold any character
    but the back quote, then the column list and [WITHOUT ROWID], which
    SQLite accepts only for a table with a primary key. *)
Definition parse_create (rest : string) : option Stmt :=
  let (name, tail) := split_at (Ascii.eqb "`") rest in
  if (negb (String.eqb name EmptyString)
      && String.prefix "` (" tail
      && Ident.ends_with ") WITHOUT ROWID;" tail
      && Ident.contains "PRIMARY KEY" (Ident.upper tail))%bool
  then Some (SCreate name) else None.

(** After [DROP TABLE ]: a bare identifier and the semicolon. *)
Definition parse_drop (rest : string) : option Stmt :=
  let (name, tail) := split_at (fun c => negb (Ident.ident_char c)) rest in
  if (Ident.valid_identifier name && String.eqb tail ";")%bool
  then Some (SDrop name) else None.

Definition parse (sql : string) : option Stmt :=
  if String.eqb sql ENSURE_VERSION_TABLE_SQL then Some SEnsure
  else if String.eqb sql SELECT_VERSION_SQL then Some SSelect
  else if String.eqb sql INSERT_VERSION_SQL then Some SInsert
  else
    match strip "CREATE TABLE `" sql with
    | Some rest => parse_create rest
    | None =>
        match strip "DROP TABLE " sql with
        | Some rest => parse_drop rest
        | None => None
        end
    end.

Definition has_table (d : Db) (n : string) : bool :=
  existsb (String.eqb n) (tables d).

Fixpoint lookup {A : Type} (n : string) (l : list (string * A)) : option A :=
  match l with
  | [] => None
  | (k, v) :: l' => if String.eqb k n then Some v else lookup n l'
  end.

Definition remove_key {A : Type} (n : string) (l : list (string * A))
  : list (string * A) :=
  filter (fun kv => negb (String.eqb (fst kv) n)) l.

(** The value an [INTEGER] column keeps for a bound value. *)
Definition stored (v : QVariant) : QVariant :=
  match v with
  | QV_Int i => QV_LongLong i
  | _ => v
  end.

Definition prepare_ok (d : Db) (sql : string) : bool :=
  match parse sql with
  | Some SEnsure => true
  | Some SSelect => has_table d VERSION_TABLE_NAME
  | Some SInsert => has_table d VERSION_TABLE_NAME
  | Some (SCreate n) => negb (has_table d n)
  | Some (SDrop n) => has_table d n
  | None => false
  end.

Definition record_of (v : QVariant) : QSqlRecord :=
  fun field => if String.eqb field "version" then v else QV_Invalid.

Definition exec_result (d : Db) (sql : string) (b : Bindings)
  : option (Db * list QSqlRecord) :=
  if negb (prepare_ok d sql) then None else
  match parse sql with
  | Some SEnsure =>
      if has_table d VERSION_TABLE_NAME then Some (d, [])
      else Some (mkDb (tables d ++ [VERSION_TABLE_NAME])%list [], [])
  | Some SSelect =>
      match lookup ":tableName" b with
      | Some (QV_String n) =>
          match lookup n (rows d) with
          | Some v => Some (d, [record_of v])
          | None => Some (d, [])
          end
      | _ => Some (d, [])
      end
  | Some SInsert =>
      match lookup ":tableName" b, lookup ":version" b with
      | Some (QV_String n), Some v =>
          Some (mkDb (tables d) ((n, stored v) :: remove_key n (rows d)), [])
      | _, _ => None
      end
  | Some (SCreate n) =>
      Some (mkDb (tables d ++ [n])%list
              (if String.eqb n VERSION_TABLE_NAME then [] else rows d), [])
  | Some (SDrop n) =>
      Some (mkDb (filter (fun m => negb (String.eqb m n)) (tables d)) (rows d), [])
  | None => None
  end.

(** Unsigned decimal numbers, digit by digit. *)
Fixpoint digits (acc : Z) (s : string) : option Z :=
  match s with
  | EmptyString => Some acc
  | String c r =>
      if Ident.is_digit c
      then digits (10 * acc + Z.of_nat (nat_of_ascii c - 48)) r
      else None
  end.

Definition toULongLong (s : string) : Z * bool :=
  match s with
  | EmptyString => (0, false)
  | _ => match digits 0 s with
         | Some z => (z, true)
         | None => (0, false)
         end
  end.

Definition row (d : Db) (n : string) : option QVariant :=
  if has_table d VERSION_TABLE_NAME then lookup n (rows d) else None.

#[export] Instance driver : QtSql := {|
  QSqlDatabase := Db;
  QSqlDatabase_tables := tables;
  QSqlQuery_prepare_ok := prepare_ok;
  QSqlQuery_exec_result := exec_result;
  QString_toULongLong := toULongLong;
  registry_row := row
|}.

(** A freshly opened, empty database file. *)
Definition fresh : World := mkWorld (mkDb [] []) [] [].

(** The world an action leaves, and its result. *)
Definition after {A : Type} (c : M A) (w : World) : World := snd (c w).
Definition result {A : Type} (c : M A) (w : World) : A := fst (c w).

Definition measurements : ColumnList :=
  [("id", "INTEGER PRIMARY KEY"); ("weight", "REAL")].

(** The registry is there. *)
Definition w_registry : World := after ensureVersionTable fresh.

(** The registry and the table [Measurements] are there. *)
Definition w_table : World :=
  after (createTable "Measurements" measurements) w_registry.

(** Version 3 is recorded for [Measurements]. *)
Definition w_versioned : World :=
  after (setTableVersion "Measurements" 3) w_table.

(** [Measurements] has been dropped again. *)
Definition w_dropped : World :=
  after (dropTable "Measurements") w_versioned.

(** A table whose name is not an identifier has been created. *)
Definition w_spaced : World :=
  after (createTable "my table" [("bad column", "TEXT PRIMARY KEY")]) fresh.

End Toy.

(* ===================================================================== *)
(** ** The histories of the core *)
(* ===================================================================== *)

(** The operations of the table manager and of the version registry. *)
Inductive CoreOp : Type :=
| OpEnsureVersionTable
| OpIsTablePresent (tableName : string)
| OpCreateTable (tableName : string) (tableDefinition : ColumnList)
| OpDropTable (tableName : string)
| OpGetTableVersion (tableName : string)
| OpSetTableVersion (tableName : string) (tableVersion : Z).

(** The operation is called with table names that are identifiers and with
    a well-formed column definition, as the data model requires. *)
Definition op_well_formed (op : CoreOp) : Prop :=
  match op with
  | OpCreateTable n cols =>
      Ident.valid_identifier n = true /\ well_formed_columns cols
  | OpDropTable n => Ident.valid_identifier n = true
  | _ => True
  end.

Section Histories.

Context {D : QtSql}.

(** The world an operation leaves. *)
Definition run_op (op : CoreOp) (w : World) : World :=
  match op with
  | OpEnsureVersionTable => snd (ensureVersionTable w)
  | OpIsTablePresent n => snd (isTablePresent n w)
  | OpCreateTable n cols => snd (createTable n cols w)
  | OpDropTable n => snd (dropTable n w)
  | OpGetTableVersion n => snd (getTableVersion n w)
  | OpSetTableVersion n v => snd (setTableVersion n v w)
  end.

(** [history w0 h]: [h] lists the worlds of a run of operations that
    started in [w0], the latest first. *)
Inductive history (w0 : World) : list World -> Prop :=
| history_start : history w0 [w0]
| history_step : forall op w h,
    history w0 (w :: h) ->
    op_well_formed op ->
    history w0 (run_op op w :: w :: h).

(** The table exists or once existed in the run. *)
Definition once_existed (h : list World) (n : string) : Prop :=
  exists w, In w h /\ In n (QSqlDatabase_tables (db w)).

(** The registry has a row for the table. *)
Definition registered (w : World) (n : string) : Prop :=
  registry_row (db w) n <> None.

(** The driver calls and the log lines added between two worlds. *)
Definition new_calls (w w' : World) : list DriverCall :=
  skipn (length (calls w)) (calls w').

Definition new_log (w w' : World) : list LogLine :=
  skipn (length (log w)) (log w').

(** As the specification words it: a statement [createTable] hands to the
    driver is built from names on the allow-list only. *)
Definition createTable_validates
    (n : string) (cols : ColumnList) (w : World) : Prop :=
  forall sql,
    In (CallPrepare sql) (new_calls w (snd (createTable n cols w))) ->
    Ident.valid_identifier n = true
    /\ Forall (fun c => Ident.valid_identifier (fst c) = true) cols.

(** As the specification words it: a statement [dropTable] hands to the
    driver is built from a name on the allow-list only. *)
Definition dropTable_validates (n : string) (w : World) : Prop :=
  forall sql,
    In (CallPrepare sql) (new_calls w (snd (dropTable n w))) ->
    Ident.valid_identifier n = true.

(** As the specification words it: the storage convention is applied only
    when the definition designates a primary key. *)
Definition without_rowid_only_for_primary_key
    (n : string) (cols : ColumnList) : Prop :=
  uses_without_rowid (createTable_sql n cols) = true ->
  designates_primary_key cols = true.

(** As the specification words it: a failure of [executeQuery] leaves a
    diagnostic line in the log. *)
Definition failure_is_logged (sql : string) (w : World) : Prop :=
  fst (executeQuery sql w) = false ->
  exists line, In line (new_log w (snd (executeQuery sql w))).

(** The world after a warning about a table has been logged. *)
Definition warned (msg n : string) (w : World) : World :=
  mkWorld (db w) (calls w) (log w ++ [(LogWarning, [msg; n])])%list.

End Histories.

(** The characters of a name are free of the percent sign of the place
    markers. *)
Definition marker_free (s : string) : bool :=
  Ident.all_chars (fun c => negb (Ascii.eqb c "%")) s.

(* ===================================================================== *)
(** ** The process around the database: directories, dialogs, translators *)
(* ===================================================================== *)

(** The version a row of the registry yields under the tests of
    [getTableVersion]: the variant must be valid and convertible. *)
Definition recorded_version {D : QtSql} (v : QVariant) : option Z :=
  if (QVariant_isValid v && snd (QVariant_toUInt v))%bool
  then Some (int_of_uint (fst (QVariant_toUInt v)))
  else None.

(** A [QMessageBox::critical]: its title and its text. *)
Definition Dialog : Type := (string * string)%type.

(** A [QTranslator]: empty, or holding what one [load] found (file name and
    directory). *)
Definition QTranslator : Type := option (string * string).

(** One call of [QTranslator::load]: file name, directory, delimiters. *)
Definition LoadCall : Type := (string * string * string)%type.

(** What the start-up functions of [utils.cpp] call outside the SQL module,
    with the constants of [config.hpp] and the table of [Data::UserDataDB],
    none of which is in the repository's sources here.  [QDir_mkdir] returns
    the file system with the new directory, when it could make it;
    [QSqlDatabase_connect] stands for [addDatabase], [setDatabaseName] and
    [open]: whether the file could be opened, and the connection the global
    [db] holds afterward. *)
Class Desktop (D : QtSql) : Type := {
  FileSystem : Type;
  QDir_homePath : string;
  QDir_exists : FileSystem -> string -> bool;
  QDir_exists_entry : FileSystem -> string -> string -> bool;
  QDir_mkdir : FileSystem -> string -> string -> option FileSystem;
  QDir_cd : FileSystem -> string -> string -> bool;
  QDir_filePath : string -> string -> string;
  qApp_translate : string -> string -> string;
  QLocale_system_name : string;
  QLibraryInfo_TranslationsPath : string;
  QTranslator_load : string -> string -> string -> bool;
  BSM_SAVING_FOLDER : string;
  BSM_CFG_TRANSLATIONS_PATH : string;
  QSqlDatabase_connect : string -> bool * QSqlDatabase;
  UserDataDB_createTable : M bool;
  UserDataDB_tableName : string
}.

(** What is assumed of the file system: a directory that has been made is
    there, and making it removes no directory. *)
Class FileSystemLaws {D : QtSql} (E : Desktop D) : Prop := {
  mkdir_makes : forall fs path name fs',
    QDir_mkdir fs path name = Some fs' ->
    QDir_exists_entry fs' path name = true;
  mkdir_keeps : forall fs path name fs' other,
    QDir_mkdir fs path name = Some fs' ->
    QDir_exists fs other = true ->
    QDir_exists fs' other = true
}.

Section Startup.

Context {D : QtSql} {E : Desktop D}.

(** The process: the world of the database, the file system, the dialogs
    shown, the translators installed and the loads attempted, in order. *)
Record Process : Type := mkProcess {
  world : World;
  files : FileSystem;
  dialogs : list Dialog;
  installed : list QTranslator;
  loads : list LoadCall
}.

Definition N (A : Type) : Type := Process -> A * Process.

Definition retN {A : Type} (a : A) : N A := fun p => (a, p).

Definition bindN {A B : Type} (c : N A) (k : A -> N B) : N B :=
  fun p => let (a, p') := c p in k a p'.

(** An action of the database world, run inside the process. *)
Definition lift {A : Type} (c : M A) : N A :=
  fun p =>
    let (a, w') := c (world p) in
    (a, mkProcess w' (files p) (dialogs p) (installed p) (loads p)).

Definition logN (lvl : LogLevel) (items : list string) : N unit :=
  lift (write_log lvl items).

(** [QMessageBox::critical(0, title, text)]. *)
Definition QMessageBox_critical (title text : string) : N unit :=
  fun p =>
    (tt, mkProcess (world p) (files p) (dialogs p ++ [(title, text)])%list
           (installed p) (loads p)).

(** [QDir(path).exists()], [path.exists(name)], [path.mkdir(name)] and
    [path.cd(name)] on the file system of the process. *)
Definition dir_exists (path : string) : N bool :=
  fun p => (QDir_exists (files p) path, p).

Definition dir_exists_entry (path name : string) : N bool :=
  fun p => (QDir_exists_entry (files p) path name, p).

Definition dir_mkdir (path name : string) : N bool :=
  fun p =>
    match QDir_mkdir (files p) path name with
    | Some fs' =>
        (true, mkProcess (world p) fs' (dialogs p) (installed p) (loads p))
    | None => (false, p)
    end.

Definition dir_cd (path name : string) : N bool :=
  fun p => (QDir_cd (files p) path name, p).

(** [translator->load(filename, directory, delimiters)]: the attempt is
    recorded; the translator holds the file when the load succeeds. *)
Definition translator_load (filename directory delimiters : string)
  : N (bool * QTranslator) :=
  fun p =>
    let ok := QTranslator_load filename directory delimiters in
    ((ok, if ok then Some (filename, directory) else None),
     mkProcess (world p) (files p) (dialogs p) (installed p)
       (loads p ++ [(filename, directory, delimiters)])%list).

(** [qApp->installTranslator(translator)]. *)
Definition installTranslator (t : QTranslator) : N unit :=
  fun p =>
    (tt, mkProcess (world p) (files p) (dialogs p)
           (installed p ++ [t])%list (loads p)).

(** [db = QSqlDatabase::addDatabase("QSQLITE"); db.setDatabaseName(path);
    db.open()]. *)
Definition db_connect (path : string) : N bool :=
  fun p =>
    let (ok, d) := QSqlDatabase_connect path in
    (ok, mkProcess (mkWorld d (calls (world p)) (log (world p)))
           (files p) (dialogs p) (installed p) (loads p)).

End Startup.

Declare Scope process_scope.
Delimit Scope process_scope with process.

Notation "x <- c ;; k" := (bindN c (fun x => k))
  (at level 61, c at next level, right associativity) : process_scope.
Notation "' pat <- c ;; k" := (bindN c (fun x => match x with pat => k end))
  (at level 61, pat pattern, c at next level, right associativity) : process_scope.
Notation "c ;; k" := (bindN c (fun _ => k))
  (at level 61, right associativity) : process_scope.

(** The double quote of the message texts. *)
Definition dquote : string := String (ascii_of_nat 34) EmptyString.

Definition APP_TITLE : string := "Beurer Scale Manager - ".

Definition CHECK_ENVIRONMENT : string :=
  ".<br><br>Please check your environment.".

Section StartupCode.

Context {D : QtSql} {E : Desktop D}.
Local Open Scope process_scope.

(** [qApp->translate("BSM::Utils", text)]. *)
Definition tr (text : string) : string := qApp_translate "BSM::Utils" text.

(** The two arguments of the critical dialogs: the title after the
    application name, and the text around its place marker. *)
Definition critical_box (title before after argument : string) : N unit :=
  QMessageBox_critical (APP_TITLE ++ tr title)
    (QStr.arg (tr (before ++ after)) argument).

(** [void loadTranslation()]; the conditions of the two [if] yield the
    translator as the loads left it. *)
Definition loadTranslation : N unit :=
  let searchDelimiters := "_.-" in
  let localeName := QLocale_system_name in
  logN LogDebug ["Loading translation for"; localeName] ;;
  let qtTr : QTranslator := None in
  '(warn, qtTr) <-
    (if negb (String.prefix "en" localeName) then
       '(ok, qtTr) <- translator_load ("qt_" ++ localeName)
                        QLibraryInfo_TranslationsPath searchDelimiters ;;
       if negb ok then
         '(ok, qtTr) <- translator_load ("qt_" ++ localeName)
                          "translations" searchDelimiters ;;
         retN (negb ok, qtTr)
       else retN (false, qtTr)
     else retN (false, qtTr)) ;;
  (if warn then logN LogWarning ["Cannot load QT translation for"; localeName]
   else retN tt) ;;
  installTranslator qtTr ;;
  let bsmTr : QTranslator := None in
  '(warn, bsmTr) <-
    (if negb (String.prefix "en" localeName) then
       '(ok, bsmTr) <- translator_load localeName
                         BSM_CFG_TRANSLATIONS_PATH searchDelimiters ;;
       if negb ok then
         '(ok, bsmTr) <- translator_load localeName
                           "translations" searchDelimiters ;;
         retN (negb ok, bsmTr)
       else retN (false, bsmTr)
     else retN (false, bsmTr)) ;;
  (if warn then logN LogWarning ["Cannot load translation for"; localeName]
   else retN tt) ;;
  installTranslator bsmTr.

(** [bool checkUserDirectory()] *)
Definition checkUserDirectory : N bool :=
  let path := QDir_homePath in
  home <- dir_exists path ;;
  if negb home then
    logN LogCritical ["Cannot find user directory"; path] ;;
    critical_box "Directory not found"
      ("Cannot find user directory " ++ dquote ++ "%1" ++ dquote)
      CHECK_ENVIRONMENT path ;;
    retN false
  else
  logN LogDebug ["User directory"; path; "OK"] ;;
  found <- dir_exists_entry path BSM_SAVING_FOLDER ;;
  ready <-
    (if negb found then
       logN LogDebug ["Try to create"; QDir_filePath path BSM_SAVING_FOLDER] ;;
       made <- dir_mkdir path BSM_SAVING_FOLDER ;;
       if negb made then
         logN LogCritical ["Cannot create saving directory"] ;;
         critical_box "Directory not created"
           ("Cannot create user saving directory " ++ dquote ++ "%1" ++ dquote)
           CHECK_ENVIRONMENT (QDir_filePath path BSM_SAVING_FOLDER) ;;
         retN false
       else retN true
     else retN true) ;;
  if negb ready then retN false else
  entered <- dir_cd path BSM_SAVING_FOLDER ;;
  if negb entered then
    logN LogCritical ["Cannot open saving directory"] ;;
    critical_box "Directory not opened"
      ("Cannot open user saving directory " ++ dquote ++ "%1" ++ dquote)
      CHECK_ENVIRONMENT (QDir_filePath path BSM_SAVING_FOLDER) ;;
    retN false
  else
  let path := QDir_filePath path BSM_SAVING_FOLDER in
  logN LogDebug ["User saving directory"; path; "OK"] ;;
  retN true.

(** [QString getSavingDirectory()] *)
Definition getSavingDirectory : string :=
  QDir_homePath ++ "/" ++ BSM_SAVING_FOLDER ++ "/".

(** The local [dbPath] of [openDdAndCheckTables]. *)
Definition database_path : string :=
  getSavingDirectory ++ "BeurerScaleManager.db".

(** [bool openDdAndCheckTables()] *)
Definition openDdAndCheckTables : N bool :=
  let dbPath := database_path in
  logN LogDebug ["DB in"; dbPath] ;;
  opened <- db_connect dbPath ;;
  if negb opened then
    logN LogCritical ["Cannot open DB"] ;;
    critical_box "Database not opened"
      ("Cannot open the database " ++ dquote ++ "%1" ++ dquote)
      CHECK_ENVIRONMENT dbPath ;;
    retN false
  else
  ensured <- lift ensureVersionTable ;;
  if negb ensured then
    logN LogCritical ["Cannot create version table"] ;;
    critical_box "Cannot create table"
      ("Cannot create table " ++ dquote ++ "%1" ++ dquote)
      CHECK_ENVIRONMENT VERSION_TABLE_NAME ;;
    retN false
  else
  let failedTables : list string := [] in
  created <- lift UserDataDB_createTable ;;
  failedTables <-
    (if negb created then
       logN LogCritical ["Cannot create table"; UserDataDB_tableName] ;;
       retN (failedTables ++ [UserDataDB_tableName])%list
     else retN failedTables) ;;
  if negb (match failedTables with [] => true | _ => false end) then
    critical_box "Cannot create table"
      "Cannot create the following tables: %1" CHECK_ENVIRONMENT
      (QStr.join "," failedTables) ;;
    retN false
  else retN true.

End StartupCode.

(** A desktop small enough to run: the file system is the list of the
    directories that exist, the only translation file on disk is the
    Italian one of the application, in the local [translations] directory,
    and the data table is created through [createTable]. *)
Module ToyDesk.

Definition file_path (path name : string) : string := path ++ "/" ++ name.

Definition has_dir (fs : list string) (path : string) : bool :=
  existsb (String.eqb path) fs.

Definition mkdir (fs : list string) (path name : string)
  : option (list string) :=
  if (has_dir fs path && negb (has_dir fs (file_path path name)))%bool
  then Some (fs ++ [file_path path name])%list
  else None.

Definition load (file directory delimiters : string) : bool :=
  (String.eqb file "it_IT" && String.eqb directory "translations")%bool.

Definition user_data : ColumnList :=
  [("id", "INTEGER PRIMARY KEY"); ("name", "TEXT")].

#[export] Instance desk (locale : string) (openable : bool)
  : Desktop Toy.driver := {|
  FileSystem := list string;
  QDir_homePath := "/home/user";
  QDir_exists := has_dir;
  QDir_exists_entry := fun fs path name => has_dir fs (file_path path name);
  QDir_mkdir := mkdir;
  QDir_cd := fun fs path name => has_dir fs (file_path path name);
  QDir_filePath := file_path;
  qApp_translate := fun _ text => text;
  QLocale_system_name := locale;
  QLibraryInfo_TranslationsPath := "/usr/share/qt4/translations";
  QTranslator_load := load;
  BSM_SAVING_FOLDER := ".BeurerScaleManager";
  BSM_CFG_TRANSLATIONS_PATH := "/usr/share/bsm/translations";
  QSqlDatabase_connect :=
    fun _ => (openable, (Toy.mkDb [] [] : @QSqlDatabase Toy.driver));
  UserDataDB_createTable := @createTable Toy.driver "UserData" user_data;
  UserDataDB_tableName := "UserData"
|}.

(** The process at its start, on a given file system. *)
Definition start (locale : string) (openable : bool) (fs : list string)
  : @Process Toy.driver (desk locale openable) :=
  @mkProcess Toy.driver (desk locale openable) Toy.fresh fs [] [] [].

(** A database file that refuses every statement, and the desktop and
    process around it. *)
Definition locked_driver : QtSql := {|
  QSqlDatabase := unit;
  QSqlDatabase_tables := fun _ => [];
  QSqlQuery_prepare_ok := fun _ _ => false;
  QSqlQuery_exec_result := fun _ _ _ => None;
  QString_toULongLong := Toy.toULongLong;
  registry_row := fun _ _ => None
|}.

Definition locked_desk : Desktop locked_driver := {|
  FileSystem := list string;
  QDir_homePath := "/home/user";
  QDir_exists := has_dir;
  QDir_exists_entry := fun fs path name => has_dir fs (file_path path name);
  QDir_mkdir := mkdir;
  QDir_cd := fun fs path name => has_dir fs (file_path path name);
  QDir_filePath := file_path;
  qApp_translate := fun _ text => text;
  QLocale_system_name := "it_IT";
  QLibraryInfo_TranslationsPath := "/usr/share/qt4/translations";
  QTranslator_load := load;
  BSM_SAVING_FOLDER := ".BeurerScaleManager";
  BSM_CFG_TRANSLATIONS_PATH := "/usr/share/bsm/translations";
  QSqlDatabase_connect := fun _ => (true, (tt : @QSqlDatabase locked_driver));
  UserDataDB_createTable := @createTable locked_driver "UserData" user_data;
  UserDataDB_tableName := "UserData"
|}.

Definition locked_start : @Process locked_driver locked_desk :=
  @mkProcess locked_driver locked_desk
    (@mkWorld locked_driver tt [] []) ["/home/user"] [] [] [].

(** A world where a version beyond the range of a C [int] is stored. *)
Definition w_large : @World Toy.driver :=
  @mkWorld Toy.driver
    (Toy.mkDb [VERSION_TABLE_NAME; "Measurements"]
       [("Measurements", QV_LongLong 3000000000)]) [] [].

End ToyDesk.

(** The version the registry records for a table: that of its row, when
    there is one that passes the tests of [getTableVersion]. *)
Definition version_of_row {D : QtSql} (d : QSqlDatabase) (n : string)
  : option Z :=
  match registry_row d n with
  | Some v => recorded_version v
  | None => None
  end.

(** As the specification words it, for every table name: a [dropTable]
    that succeeded on a listed table leaves the table unlisted. *)
Definition dropTable_removes {D : QtSql} (n : string) (w : World) : Prop :=
  fst (isTablePresent n w) = true ->
  fst (dropTable n w) = true ->
  fst (isTablePresent n (snd (dropTable n w))) = false.

(** The runs of the operations of the core with table names of any kind,
    the latest world first. *)
Inductive any_history {D : QtSql} (w0 : World) : list World -> Prop :=
| any_history_start : any_history w0 [w0]
| any_history_step : forall op w h,
    any_history w0 (w :: h) ->
    any_history w0 (run_op op w :: w :: h).

(** A second executable driver, closer to SQLite on two points the first
    one leaves out: a [--] comment ends the text of a statement, and
    [CREATE TABLE name AS SELECT] creates the table together with the
    selected row.  Its database is that of the first driver. *)
Module Loose.

Inductive Stmt : Type :=
| SEnsure
| SSelect
| SInsert
| SCreate (name : string)
| SCreateAs (name key : string) (version : Z)
| SDrop (name : string).

(** A comment that runs to the end of the text. *)
Definition comment (tail : string) : bool :=
  (String.prefix "--" tail
   && Ident.all_chars (fun c => negb (Ascii.eqb c "010")) tail)%bool.

(** The end of a statement: the semicolon, or a comment. *)
Definition ends_statement (tail : string) : bool :=
  (String.eqb tail ";" || comment tail)%bool.

(** After the quoted name: [AS SELECT 'key' AS tableName, version AS
    version], then a comment. *)
Definition parse_create_as (name after : string) : option Stmt :=
  match Toy.strip " AS SELECT '" after with
  | Some r1 =>
      let (key, r2) := Toy.split_at (Ascii.eqb "'") r1 in
      match Toy.strip "' AS tableName, " r2 with
      | Some r3 =>
          let (num, r4) :=
            Toy.split_at (fun c => negb (Ident.is_digit c)) r3 in
          match Toy.digits 0 num, Toy.strip " AS version " r4 with
          | Some v, Some r5 =>
              if (negb (String.eqb num EmptyString) && comment r5)%bool
              then Some (SCreateAs name key v) else None
          | _, _ => None
          end
      | None => None
      end
  | None => None
  end.

(** After [CREATE TABLE `]: the quoted name, then either the column list
    with [WITHOUT ROWID] or [AS SELECT]. *)
Definition parse_create (rest : string) : option Stmt :=
  let (name, tail) := Toy.split_at (Ascii.eqb "`") rest in
  if String.eqb name EmptyString then None else
  match Toy.strip "`" tail with
  | Some after =>
      if (String.prefix " (" after
          && Ident.ends_with ") WITHOUT ROWID;" after
          && Ident.contains "PRIMARY KEY" (Ident.upper after))%bool
      then Some (SCreate name)
      else parse_create_as name after
  | None => None
  end.

(** After [DROP TABLE ]: a bare identifier, then the end of the
    statement. *)
Definition parse_drop (rest : string) : option Stmt :=
  let (name, tail) :=
    Toy.split_at (fun c => negb (Ident.ident_char c)) rest in
  if (Ident.valid_identifier name && ends_statement tail)%bool
  then Some (SDrop name) else None.

Definition parse (sql : string) : option Stmt :=
  if String.eqb sql ENSURE_VERSION_TABLE_SQL then Some SEnsure
  else if String.eqb sql SELECT_VERSION_SQL then Some SSelect
  else if String.eqb sql INSERT_VERSION_SQL then Some SInsert
  else
    match Toy.strip "CREATE TABLE `" sql with
    | Some rest => parse_create rest
    | None =>
        match Toy.strip "DROP TABLE " sql with
        | Some rest => parse_drop rest
        | None => None
        end
    end.

Definition prepare_ok (d : Toy.Db) (sql : string) : bool :=
  match parse sql with
  | Some SEnsure => true
  | Some SSelect => Toy.has_table d VERSION_TABLE_NAME
  | Some SInsert => Toy.has_table d VERSION_TABLE_NAME
  | Some (SCreate n) => negb (Toy.has_table d n)
  | Some (SCreateAs n _ _) => negb (Toy.has_table d n)
  | Some (SDrop n) => Toy.has_table d n
  | None => false
  end.

Definition exec_result (d : Toy.Db) (sql : string) (b : Bindings)
  : option (Toy.Db * list QSqlRecord) :=
  if negb (prepare_ok d sql) then None else
  match parse sql with
  | Some SEnsure =>
      if Toy.has_table d VERSION_TABLE_NAME then Some (d, [])
      else Some (Toy.mkDb (Toy.tables d ++ [VERSION_TABLE_NAME])%list [], [])
  | Some SSelect =>
      match Toy.lookup ":tableName" b with
      | Some (QV_String n) =>
          match Toy.lookup n (Toy.rows d) with
          | Some v => Some (d, [Toy.record_of v])
          | None => Some (d, [])
          end
      | _ => Some (d, [])
      end
  | Some SInsert =>
      match Toy.lookup ":tableName" b, Toy.lookup ":version" b with
      | Some (QV_String n), Some v =>
          Some (Toy.mkDb (Toy.tables d)
                  ((n, Toy.stored v) :: Toy.remove_key n (Toy.rows d)), [])
      | _, _ => None
      end
  | Some (SCreate n) =>
      Some (Toy.mkDb (Toy.tables d ++ [n])%list
              (if String.eqb n VERSION_TABLE_NAME then [] else Toy.rows d), [])
  | Some (SCreateAs n key v) =>
      Some (Toy.mkDb (Toy.tables d ++ [n])%list
              (if String.eqb n VERSION_TABLE_NAME then [(key, QV_LongLong v)]
               else Toy.rows d), [])
  | Some (SDrop n) =>
      Some (Toy.mkDb (filter (fun m => negb (String.eqb m n)) (Toy.tables d))
              (Toy.rows d), [])
  | None => None
  end.

Definition driver : QtSql := {|
  QSqlDatabase := Toy.Db;
  QSqlDatabase_tables := Toy.tables;
  QSqlQuery_prepare_ok := prepare_ok;
  QSqlQuery_exec_result := exec_result;
  QString_toULongLong := Toy.toULongLong;
  registry_row := Toy.row
|}.

Definition fresh : @World driver := @mkWorld driver (Toy.mkDb [] []) [] [].

Definition id_only : ColumnList := [("id", "INTEGER PRIMARY KEY")].

(** The tables [a] and [a--b] are there. *)
Definition w_ab : @World driver :=
  snd (@createTable driver "a--b" id_only
         (@mkWorld driver
            (db (snd (@createTable driver "a" id_only fresh))) [] [])).

(** A table name that closes its own quote and goes on as a statement. *)
Definition ghost_name : string :=
  "TablesVersions` AS SELECT 'ghost' AS tableName, 1 AS version --".

Definition w_ghost : @World driver :=
  snd (@createTable driver ghost_name id_only fresh).

(** The registry with a version for [Measurements], and next to it a table
    whose name starts as the registry's and goes on as a comment. *)
Definition w_shadow : @World driver :=
  snd (@createTable driver "TablesVersions--x" id_only
         (snd (@setTableVersion driver "Measurements" 3
                 (snd (@createTable driver "Measurements" id_only
                         (snd (@ensureVersionTable driver fresh))))))).

End Loose.

(* ===================================================================== *)
(** ** Strings: lemmas *)
(* ===================================================================== *)

Section StringFacts.

Lemma all_chars_weaken (p q : ascii -> bool) (s : string) :
  (forall c, p c = true -> q c = true) ->
  Ident.all_chars p s = true -> Ident.all_chars q s = true.
Proof.
  intros Hpq. induction s as [|c s IH]; simpl; auto.
  intros H. apply andb_true_iff in H. destruct H as [Hc Hs].
  rewrite (Hpq _ Hc), (IH Hs). reflexivity.
Qed.

Lemma ident_start_char (c : ascii) :
  Ident.ident_start c = true -> Ident.ident_char c = true.
Proof.
  unfold Ident.ident_char. intros ->. reflexivity.
Qed.

Lemma ident_char_not_percent (c : ascii) :
  Ident.ident_char c = true -> negb (Ascii.eqb c "%") = true.
Proof.
  destruct (Ascii.eqb_spec c "%") as [->|]; [discriminate|reflexivity].
Qed.

Lemma valid_identifier_chars (s : string) :
  Ident.valid_identifier s = true -> Ident.all_chars Ident.ident_char s = true.
Proof.
  destruct s as [|c s]; simpl; [discriminate|].
  intros H. apply andb_true_iff in H. destruct H as [Hc Hs].
  rewrite (ident_start_char _ Hc), Hs. reflexivity.
Qed.

Lemma valid_identifier_marker_free (s : string) :
  Ident.valid_identifier s = true -> marker_free s = true.
Proof.
  intros H. unfold marker_free.
  eapply all_chars_weaken; [|apply valid_identifier_chars, H].
  apply ident_char_not_percent.
Qed.

(** A run of characters without a percent sign is scanned as itself. *)
Lemma scan_marker_free (s r : string) :
  marker_free s = true ->
  QStr.scan (s ++ r) = (map QStr.Lit (list_ascii_of_string s) ++ QStr.scan r)%list.
Proof.
  unfold marker_free. induction s as [|c s IH]; simpl; [reflexivity|].
  intros H. apply andb_true_iff in H. destruct H as [Hc Hs].
  apply negb_true_iff in Hc. rewrite Hc. f_equal. apply IH, Hs.
Qed.

Lemma min_escape_lits (l : list ascii) (ps : list QStr.Piece) :
  QStr.min_escape (map QStr.Lit l ++ ps) = QStr.min_escape ps.
Proof. induction l; simpl; auto. Qed.

Lemma render_lits (m : nat) (a : string) (l : list ascii) (ps : list QStr.Piece) :
  QStr.render m a (map QStr.Lit l ++ ps)
  = string_of_list_ascii l ++ QStr.render m a ps.
Proof. induction l; simpl; [reflexivity|]. now rewrite IHl. Qed.

Lemma append_assoc (a b c : string) : (a ++ b) ++ c = a ++ (b ++ c).
Proof. induction a; simpl; [reflexivity|]. now rewrite IHa. Qed.

(** The first [arg] of [createTable] puts the name between the back
    quotes, whatever the name is. *)
Lemma arg_table_name (n : string) :
  QStr.arg "CREATE TABLE `%1` (%2) WITHOUT ROWID;" n
  = "CREATE TABLE `" ++ n ++ "` (%2) WITHOUT ROWID;".
Proof. reflexivity. Qed.

(** The second [arg] puts the column list between the parentheses when
    the name brought no place marker of its own. *)
Lemma arg_columns (n body : string) :
  marker_free n = true ->
  QStr.arg ("CREATE TABLE `" ++ n ++ "` (%2) WITHOUT ROWID;") body
  = "CREATE TABLE `" ++ n ++ "` (" ++ body ++ ") WITHOUT ROWID;".
Proof.
  intros Hn. unfold QStr.arg.
  change ("CREATE TABLE `" ++ n ++ "` (%2) WITHOUT ROWID;")
    with ("CREATE TABLE `" ++ (n ++ "` (%2) WITHOUT ROWID;")).
  assert (Hscan : QStr.scan ("CREATE TABLE `" ++ (n ++ "` (%2) WITHOUT ROWID;"))
                  = (map QStr.Lit (list_ascii_of_string "CREATE TABLE `")
                       ++ map QStr.Lit (list_ascii_of_string n)
                       ++ QStr.scan "` (%2) WITHOUT ROWID;")%list).
  { rewrite (scan_marker_free "CREATE TABLE `") by reflexivity.
    rewrite (scan_marker_free n) by exact Hn. reflexivity. }
  rewrite Hscan, !min_escape_lits.
  change (QStr.min_escape (QStr.scan "` (%2) WITHOUT ROWID;")) with (Some 2%nat).
  cbv beta iota.
  rewrite !render_lits, !string_of_list_ascii_of_string.
  reflexivity.
Qed.

Lemma createTable_items_from (cols : ColumnList) (acc : list string) :
  fold_left
    (fun (tmp : list string) (it : string * string) =>
       (tmp ++ [(fst it ++ " " ++ snd it)%string])%list) cols acc
  = (acc ++ map (fun c => (fst c ++ " " ++ snd c)%string) cols)%list.
Proof.
  revert acc. induction cols as [|c cols IH]; intros acc; simpl.
  - now rewrite app_nil_r.
  - rewrite IH, <- app_assoc. reflexivity.
Qed.

(** The loop of [createTable] keeps the order of the definition. *)
Lemma createTable_items_map (cols : ColumnList) :
  createTable_items cols = map (fun c => fst c ++ " " ++ snd c) cols.
Proof. unfold createTable_items. now rewrite createTable_items_from. Qed.

(** For a name without place markers the statement of [createTable] is
    the specified text. *)
Lemma createTable_sql_text (n : string) (cols : ColumnList) :
  marker_free n = true ->
  createTable_sql n cols = create_table_text n cols.
Proof.
  intros Hn. unfold createTable_sql, create_table_text, QStr.join.
  rewrite arg_table_name, arg_columns by exact Hn.
  rewrite createTable_items_map. reflexivity.
Qed.

Lemma indexOf_from_bounds (l : list string) (x : string) (i : Z) :
  0 <= i ->
  (In x l -> i <= QStr.indexOf_from l x i)
  /\ (~ In x l -> QStr.indexOf_from l x i = -1).
Proof.
  revert i. induction l as [|y l IH]; intros i Hi; simpl.
  - split; [tauto|reflexivity].
  - destruct (String.eqb_spec y x) as [->|Hne].
    + split; [lia|tauto].
    + destruct (IH (i + 1) ltac:(lia)) as [IH1 IH2]. split.
      * intros [H|H]; [contradiction|]. specialize (IH1 H). lia.
      * intros H. apply IH2. tauto.
Qed.

(** [indexOf(x) >= 0] says that [x] is in the list. *)
Lemma indexOf_present (l : list string) (x : string) :
  (QStr.indexOf l x >=? 0) = true <-> In x l.
Proof.
  unfold QStr.indexOf.
  destruct (indexOf_from_bounds l x 0 ltac:(lia)) as [H1 H2].
  destruct (in_dec string_dec x l) as [Hin|Hout].
  - specialize (H1 Hin). split; [auto|]. intros _. apply Z.geb_le. lia.
  - rewrite (H2 Hout). split; [discriminate|contradiction].
Qed.

End StringFacts.

(* ===================================================================== *)
(** ** The executable driver satisfies the laws *)
(* ===================================================================== *)

Module ToyFacts.

Import Toy.

Lemma has_table_In (d : Db) (n : string) :
  has_table d n = true <-> In n (tables d).
Proof.
  unfold has_table. rewrite existsb_exists. split.
  - intros [m [Hin Heq]]. apply String.eqb_eq in Heq. now subst.
  - intros H. exists n. split; [exact H|apply String.eqb_refl].
Qed.

Lemma split_at_app (stop : ascii -> bool) (n r : string) (c : ascii) :
  Ident.all_chars (fun a => negb (stop a)) n = true ->
  stop c = true ->
  split_at stop (n ++ String c r) = (n, String c r).
Proof.
  intros Hn Hc. induction n as [|a n IH]; simpl in *.
  - now rewrite Hc.
  - apply andb_true_iff in Hn. destruct Hn as [Ha Hn].
    apply negb_true_iff in Ha. rewrite Ha, (IH Hn). reflexivity.
Qed.

Lemma identifier_unquoted (n : string) :
  Ident.valid_identifier n = true ->
  Ident.all_chars (fun a => negb (Ascii.eqb "`" a)) n = true.
Proof.
  intros Hn. eapply all_chars_weaken; [|apply valid_identifier_chars, Hn].
  intros c Hc. destruct (Ascii.eqb_spec "`" c) as [<-|]; [discriminate|reflexivity].
Qed.

Lemma identifier_run (n : string) :
  Ident.valid_identifier n = true ->
  Ident.all_chars (fun a => negb (negb (Ident.ident_char a))) n = true.
Proof.
  intros Hn. eapply all_chars_weaken; [|apply valid_identifier_chars, Hn].
  intros c Hc. now rewrite Hc.
Qed.

Lemma parse_select : parse SELECT_VERSION_SQL = Some SSelect.
Proof. reflexivity. Qed.

Lemma parse_insert : parse INSERT_VERSION_SQL = Some SInsert.
Proof. reflexivity. Qed.

Lemma parse_ensure : parse ENSURE_VERSION_TABLE_SQL = Some SEnsure.
Proof. reflexivity. Qed.

(** A [CREATE TABLE] text with an identifier for a name is read as the
    creation of that table, or refused. *)
Lemma parse_create_text (n : string) (cols : ColumnList) :
  Ident.valid_identifier n = true ->
  parse (create_table_text n cols) = None
  \/ parse (create_table_text n cols) = Some (SCreate n).
Proof.
  intros Hn. unfold create_table_text, parse.
  cbn [String.eqb append ENSURE_VERSION_TABLE_SQL SELECT_VERSION_SQL
       INSERT_VERSION_SQL VERSION_TABLE_NAME Ascii.eqb Bool.eqb strip].
  unfold parse_create.
  rewrite split_at_app by (try apply identifier_unquoted, Hn; reflexivity).
  match goal with |- context [if ?c then _ else _] => destruct c end;
    [right|left]; reflexivity.
Qed.

(** A [DROP TABLE] text with an identifier for a name is read as the
    removal of that table. *)
Lemma parse_drop_text (n : string) :
  Ident.valid_identifier n = true ->
  parse ("DROP TABLE " ++ n ++ ";") = Some (SDrop n).
Proof.
  intros Hn. unfold parse.
  cbn [String.eqb append ENSURE_VERSION_TABLE_SQL SELECT_VERSION_SQL
       INSERT_VERSION_SQL VERSION_TABLE_NAME Ascii.eqb Bool.eqb strip].
  unfold parse_drop.
  rewrite split_at_app by (try apply identifier_run, Hn; reflexivity).
  rewrite Hn. reflexivity.
Qed.

Lemma lookup_remove_other {A : Type} (m n : string) (l : list (string * A)) :
  m <> n -> lookup m (remove_key n l) = lookup m l.
Proof.
  intros Hmn. induction l as [|[k v] l IH]; simpl; [reflexivity|].
  destruct (String.eqb_spec k n) as [->|Hkn]; simpl.
  - destruct (String.eqb_spec n m) as [->|_]; [contradiction|exact IH].
  - rewrite IH. reflexivity.
Qed.

Lemma has_table_added (d : Db) (n m : string) (r : list (string * QVariant)) :
  has_table (mkDb (tables d ++ [n])%list r) m
  = (has_table d m || String.eqb m n)%bool.
Proof.
  unfold has_table. simpl. rewrite existsb_app. simpl.
  now rewrite orb_false_r.
Qed.

Lemma has_table_removed (d : Db) (n m : string) (r : list (string * QVariant)) :
  has_table (mkDb (filter (fun t => negb (String.eqb t n)) (tables d)) r) m
  = (has_table d m && negb (String.eqb m n))%bool.
Proof.
  apply eq_iff_eq_true.
  rewrite andb_true_iff, !has_table_In. simpl. rewrite filter_In. tauto.
Qed.

#[export] Instance laws : SqliteLaws driver.
Proof.
  constructor;
    cbn [QSqlDatabase QSqlDatabase_tables QSqlQuery_prepare_ok
         QSqlQuery_exec_result registry_row driver].
  - (* select_readonly *)
    intros d b d' rs. unfold exec_result, prepare_ok. rewrite parse_select.
    destruct (has_table d VERSION_TABLE_NAME); simpl; [|discriminate].
    destruct (lookup ":tableName" b) as [[| | |s]|]; try congruence.
    destruct (lookup s (rows d)); congruence.
  - (* select_hit *)
    intros d n v. unfold row, exec_result, prepare_ok. rewrite parse_select.
    destruct (has_table d VERSION_TABLE_NAME); [|discriminate].
    intros Hrow. split; [reflexivity|]. simpl. rewrite Hrow.
    exists (record_of v), []. split; reflexivity.
  - (* select_miss *)
    intros d n d' rs. unfold row, exec_result, prepare_ok. rewrite parse_select.
    destruct (has_table d VERSION_TABLE_NAME); simpl; [|discriminate].
    intros ->. congruence.
  - (* insert_effect *)
    intros d n v d' rs. unfold exec_result, prepare_ok. rewrite parse_insert.
    destruct (has_table d VERSION_TABLE_NAME) eqn:Hreg; simpl; [|discriminate].
    intros H. injection H as <- _. simpl. split; [reflexivity|].
    unfold row.
    assert (Hreg' : forall r, has_table (mkDb (tables d) r) VERSION_TABLE_NAME = true)
      by (intros r; exact Hreg).
    rewrite Hreg'. cbn [lookup rows].
    rewrite String.eqb_refl. split; [reflexivity|].
    intros m Hmn. rewrite Hreg.
    destruct (String.eqb_spec n m) as [->|_]; [contradiction|].
    apply lookup_remove_other, Hmn.
  - (* create_effect *)
    intros d n cols d' rs Hn _. unfold exec_result, prepare_ok.
    destruct (parse_create_text n cols Hn) as [-> | ->]; [discriminate|].
    destruct (has_table d n) eqn:Hhas; simpl; [discriminate|].
    intros H. injection H as <- _. simpl. split.
    + intros m. rewrite in_app_iff. simpl. intuition congruence.
    + intros m. unfold row. rewrite has_table_added. cbn [rows].
      destruct (String.eqb_spec n VERSION_TABLE_NAME) as [->|Hne].
      * rewrite Hhas, String.eqb_refl. reflexivity.
      * destruct (String.eqb_spec VERSION_TABLE_NAME n) as [Heq|_];
          [congruence|]. now rewrite orb_false_r.
  - (* create_existing *)
    intros d n cols Hn _ Hin. unfold prepare_ok.
    destruct (parse_create_text n cols Hn) as [-> | ->]; [discriminate|].
    apply has_table_In in Hin. rewrite Hin. discriminate.
  - (* ensure_effect *)
    intros d d' rs. unfold exec_result, prepare_ok. rewrite parse_ensure. simpl.
    destruct (has_table d VERSION_TABLE_NAME) eqn:Hreg;
      intros H; injection H as <- _.
    + apply has_table_In in Hreg. split; [|reflexivity].
      left. intros m. intuition congruence.
    + split.
      * left. intros m. simpl. rewrite in_app_iff. simpl. intuition congruence.
      * intros m. unfold row. rewrite has_table_added, Hreg, String.eqb_refl.
        reflexivity.
  - (* drop_effect *)
    intros d n d' rs Hn _. unfold exec_result, prepare_ok.
    rewrite (parse_drop_text n Hn).
    destruct (has_table d n); simpl; [|discriminate].
    intros H. injection H as <- _. split.
    + intros m. simpl. rewrite filter_In, negb_true_iff.
      destruct (String.eqb_spec m n); intuition congruence.
    + intros m. unfold row. rewrite has_table_removed. cbn [rows].
      rewrite (String.eqb_sym VERSION_TABLE_NAME n).
      destruct (String.eqb n VERSION_TABLE_NAME); cbn [negb].
      * now rewrite andb_false_r.
      * now rewrite andb_true_r.
Qed.

End ToyFacts.

(* ===================================================================== *)
(** ** The second driver keeps the laws *)
(* ===================================================================== *)

Module LooseFacts.

Import Loose.

Lemma loose_parse_select : parse SELECT_VERSION_SQL = Some SSelect.
Proof. reflexivity. Qed.

Lemma loose_parse_insert : parse INSERT_VERSION_SQL = Some SInsert.
Proof. reflexivity. Qed.

Lemma loose_parse_ensure : parse ENSURE_VERSION_TABLE_SQL = Some SEnsure.
Proof. reflexivity. Qed.

(** A [CREATE TABLE] text with an identifier for a name is read as the
    creation of that table, or refused. *)
Lemma loose_parse_create_text (n : string) (cols : ColumnList) :
  Ident.valid_identifier n = true ->
  parse (create_table_text n cols) = None
  \/ parse (create_table_text n cols) = Some (SCreate n).
Proof.
  intros Hn. unfold create_table_text, parse.
  cbn [String.eqb append ENSURE_VERSION_TABLE_SQL SELECT_VERSION_SQL
       INSERT_VERSION_SQL VERSION_TABLE_NAME Ascii.eqb Bool.eqb Toy.strip].
  unfold parse_create.
  rewrite ToyFacts.split_at_app
    by (try apply ToyFacts.identifier_unquoted, Hn; reflexivity).
  destruct n as [|c r]; [discriminate|].
  cbn [String.eqb Toy.strip Ascii.eqb Bool.eqb].
  match goal with |- context [if ?c then Some (SCreate _) else _] =>
    destruct c end; [right|left]; reflexivity.
Qed.

(** A [DROP TABLE] text with an identifier for a name is read as the
    removal of that table. *)
Lemma loose_parse_drop_text (n : string) :
  Ident.valid_identifier n = true ->
  parse ("DROP TABLE " ++ n ++ ";") = Some (SDrop n).
Proof.
  intros Hn. unfold parse.
  cbn [String.eqb append ENSURE_VERSION_TABLE_SQL SELECT_VERSION_SQL
       INSERT_VERSION_SQL VERSION_TABLE_NAME Ascii.eqb Bool.eqb Toy.strip].
  unfold parse_drop.
  rewrite ToyFacts.split_at_app
    by (try apply ToyFacts.identifier_run, Hn; reflexivity).
  rewrite Hn. reflexivity.
Qed.

#[export] Instance laws : SqliteLaws driver.
Proof.
  constructor;
    cbn [QSqlDatabase QSqlDatabase_tables QSqlQuery_prepare_ok
         QSqlQuery_exec_result registry_row driver].
  - (* select_readonly *)
    intros d b d' rs. unfold exec_result, prepare_ok. rewrite loose_parse_select.
    destruct (Toy.has_table d VERSION_TABLE_NAME); simpl; [|discriminate].
    destruct (Toy.lookup ":tableName" b) as [[| | |s]|]; try congruence.
    destruct (Toy.lookup s (Toy.rows d)); congruence.
  - (* select_hit *)
    intros d n v. unfold Toy.row, exec_result, prepare_ok. rewrite loose_parse_select.
    destruct (Toy.has_table d VERSION_TABLE_NAME); [|discriminate].
    intros Hrow. split; [reflexivity|]. simpl. rewrite Hrow.
    exists (Toy.record_of v), []. split; reflexivity.
  - (* select_miss *)
    intros d n d' rs. unfold Toy.row, exec_result, prepare_ok.
    rewrite loose_parse_select.
    destruct (Toy.has_table d VERSION_TABLE_NAME); simpl; [|discriminate].
    intros ->. congruence.
  - (* insert_effect *)
    intros d n v d' rs. unfold exec_result, prepare_ok. rewrite loose_parse_insert.
    destruct (Toy.has_table d VERSION_TABLE_NAME) eqn:Hreg; simpl; [|discriminate].
    intros H. injection H as <- _. simpl. split; [reflexivity|].
    unfold Toy.row.
    assert (Hreg' : forall r,
               Toy.has_table (Toy.mkDb (Toy.tables d) r) VERSION_TABLE_NAME = true)
      by (intros r; exact Hreg).
    rewrite Hreg'. cbn [Toy.lookup Toy.rows].
    rewrite String.eqb_refl. split; [reflexivity|].
    intros m Hmn. rewrite Hreg.
    destruct (String.eqb_spec n m) as [->|_]; [contradiction|].
    apply ToyFacts.lookup_remove_other, Hmn.
  - (* create_effect *)
    intros d n cols d' rs Hn _. unfold exec_result, prepare_ok.
    destruct (loose_parse_create_text n cols Hn) as [-> | ->]; [discriminate|].
    destruct (Toy.has_table d n) eqn:Hhas; simpl; [discriminate|].
    intros H. injection H as <- _. simpl. split.
    + intros m. rewrite in_app_iff. simpl. intuition congruence.
    + intros m. unfold Toy.row. rewrite ToyFacts.has_table_added.
      cbn [Toy.rows].
      destruct (String.eqb_spec n VERSION_TABLE_NAME) as [->|Hne].
      * rewrite Hhas, String.eqb_refl. reflexivity.
      * destruct (String.eqb_spec VERSION_TABLE_NAME n) as [Heq|_];
          [congruence|]. now rewrite orb_false_r.
  - (* create_existing *)
    intros d n cols Hn _ Hin. unfold prepare_ok.
    destruct (loose_parse_create_text n cols Hn) as [-> | ->]; [discriminate|].
    apply ToyFacts.has_table_In in Hin. rewrite Hin. discriminate.
  - (* ensure_effect *)
    intros d d' rs. unfold exec_result, prepare_ok. rewrite loose_parse_ensure. simpl.
    destruct (Toy.has_table d VERSION_TABLE_NAME) eqn:Hreg;
      intros H; injection H as <- _.
    + apply ToyFacts.has_table_In in Hreg. split; [|reflexivity].
      left. intros m. intuition congruence.
    + split.
      * left. intros m. simpl. rewrite in_app_iff. simpl. intuition congruence.
      * intros m. unfold Toy.row.
        rewrite ToyFacts.has_table_added, Hreg, String.eqb_refl.
        reflexivity.
  - (* drop_effect *)
    intros d n d' rs Hn _. unfold exec_result, prepare_ok.
    rewrite (loose_parse_drop_text n Hn).
    destruct (Toy.has_table d n); simpl; [|discriminate].
    intros H. injection H as <- _. split.
    + intros m. simpl. rewrite filter_In, negb_true_iff.
      destruct (String.eqb_spec m n); intuition congruence.
    + intros m. unfold Toy.row. rewrite ToyFacts.has_table_removed.
      cbn [Toy.rows].
      rewrite (String.eqb_sym VERSION_TABLE_NAME n).
      destruct (String.eqb n VERSION_TABLE_NAME); cbn [negb].
      * now rewrite andb_false_r.
      * now rewrite andb_true_r.
Qed.

End LooseFacts.

(* ===================================================================== *)
(** ** What the code does, whatever the driver *)
(* ===================================================================== *)

Section CodeFacts.

Context {D : QtSql}.

Lemma bind_run {A B : Type} (c : M A) (k : A -> M B) (w : World) :
  bind c k w = k (fst (c w)) (snd (c w)).
Proof. unfold bind. destruct (c w); reflexivity. Qed.

Lemma isTablePresent_db (n : string) (w : World) :
  db (snd (isTablePresent n w)) = db w.
Proof. reflexivity. Qed.

Lemma isTablePresent_run (n : string) (w : World) :
  isTablePresent n w
  = (QStr.indexOf (QSqlDatabase_tables (db w)) n >=? 0,
     record_call CallTables w).
Proof. reflexivity. Qed.

Lemma isTablePresent_In (n : string) (w : World) :
  fst (isTablePresent n w) = true <-> In n (QSqlDatabase_tables (db w)).
Proof. rewrite isTablePresent_run. apply indexOf_present. Qed.

Lemma isTablePresent_same_db (n : string) (w w' : World) :
  db w = db w' -> fst (isTablePresent n w) = fst (isTablePresent n w').
Proof. intros H. rewrite !isTablePresent_run. simpl. now rewrite H. Qed.

(** [executeQuery], outcome by outcome. *)
Lemma executeQuery_run (sql : string) (w : World) :
  executeQuery sql w
  = let w1 := record_call (CallPrepare sql) w in
    let w2 := record_call (CallExec sql []) w1 in
    if QSqlQuery_prepare_ok (db w) sql then
      match QSqlQuery_exec_result (db w) sql [] with
      | Some (d', _) => (true, mkWorld d' (calls w2) (log w2))
      | None => (false, w2)
      end
    else (false, w1).
Proof.
  unfold executeQuery, bind, QSqlQuery_prepare, QSqlQuery_exec, ret. simpl.
  destruct (QSqlQuery_prepare_ok (db w) sql); simpl; [|reflexivity].
  destruct (QSqlQuery_exec_result (db w) sql []) as [[d' rs]|]; reflexivity.
Qed.

Lemma executeQuery_log (sql : string) (w : World) :
  log (snd (executeQuery sql w)) = log w.
Proof.
  rewrite executeQuery_run. simpl.
  destruct (QSqlQuery_prepare_ok (db w) sql); [|reflexivity].
  destruct (QSqlQuery_exec_result (db w) sql []) as [[d' rs]|]; reflexivity.
Qed.

(** A successful [executeQuery] is a successful execution. *)
Lemma executeQuery_true (sql : string) (w : World) :
  fst (executeQuery sql w) = true ->
  QSqlQuery_prepare_ok (db w) sql = true
  /\ exists rows,
       QSqlQuery_exec_result (db w) sql []
       = Some (db (snd (executeQuery sql w)), rows).
Proof.
  rewrite executeQuery_run. simpl.
  destruct (QSqlQuery_prepare_ok (db w) sql); [|discriminate].
  destruct (QSqlQuery_exec_result (db w) sql []) as [[d' rs]|];
    [|discriminate].
  intros _. split; [reflexivity|]. exists rs. reflexivity.
Qed.

(** A failed [executeQuery] leaves the database as it was. *)
Lemma executeQuery_false (sql : string) (w : World) :
  fst (executeQuery sql w) = false -> db (snd (executeQuery sql w)) = db w.
Proof.
  rewrite executeQuery_run. simpl.
  destruct (QSqlQuery_prepare_ok (db w) sql); [|reflexivity].
  destruct (QSqlQuery_exec_result (db w) sql []) as [[d' rs]|];
    [discriminate|reflexivity].
Qed.

(** The driver calls of [executeQuery]: a preparation, then at most one
    execution, never a look at the catalog. *)
Lemma executeQuery_calls (sql : string) (w : World) :
  calls (snd (executeQuery sql w)) = (calls w ++ [CallPrepare sql])%list
  \/ calls (snd (executeQuery sql w))
     = (calls w ++ [CallPrepare sql; CallExec sql []])%list.
Proof.
  rewrite executeQuery_run. simpl.
  destruct (QSqlQuery_prepare_ok (db w) sql); [|left; reflexivity].
  right.
  destruct (QSqlQuery_exec_result (db w) sql []) as [[d' rs]|]; simpl;
    now rewrite <- app_assoc.
Qed.

Lemma createTable_run (n : string) (cols : ColumnList) (w : World) :
  createTable n cols w
  = executeQuery (createTable_sql n cols)
      (mkWorld (db w) (calls w)
         (log w ++ [(LogDebug, ["Creating table"; n; ":"; createTable_sql n cols])])%list).
Proof. reflexivity. Qed.

Lemma dropTable_run (n : string) (w : World) :
  dropTable n w
  = if fst (isTablePresent n w) then
      let r := executeQuery (dropTable_sql n) (record_call CallTables w) in
      if fst r then (true, snd r)
      else (false,
            mkWorld (db (snd r)) (calls (snd r))
              (log (snd r) ++ [(LogWarning, ["Cannot drop table"; n])])%list)
    else (true, record_call CallTables w).
Proof.
  unfold dropTable, bind. rewrite isTablePresent_run. cbn [fst snd].
  destruct (QStr.indexOf (QSqlDatabase_tables (db w)) n >=? 0);
    [|reflexivity].
  cbn [negb]. cbv zeta.
  destruct (executeQuery (dropTable_sql n) (record_call CallTables w))
    as [[|] w']; reflexivity.
Qed.

Lemma ends_with_app (suffix a b : string) :
  Ident.ends_with suffix b = true -> Ident.ends_with suffix (a ++ b) = true.
Proof.
  intros Hb. induction a as [|c a IH]; simpl; [exact Hb|].
  rewrite IH. apply orb_true_r.
Qed.

(** C8 (as amended): for every SQL string, [executeQuery] returns false
    after the preparation alone when the preparation fails, returns false
    when the execution fails, and returns true otherwise, the database
    being then the one the statement produced; it is a total function of
    the statement and the world, and it writes no log line of its own,
    whatever the outcome. *)
Theorem executeQuery_outcomes (sql : string) (w : World) :
  (QSqlQuery_prepare_ok (db w) sql = false ->
   executeQuery sql w = (false, record_call (CallPrepare sql) w))
  /\ (QSqlQuery_prepare_ok (db w) sql = true ->
      QSqlQuery_exec_result (db w) sql [] = None ->
      executeQuery sql w
      = (false, record_call (CallExec sql []) (record_call (CallPrepare sql) w)))
  /\ (forall d' rows,
        QSqlQuery_prepare_ok (db w) sql = true ->
        QSqlQuery_exec_result (db w) sql [] = Some (d', rows) ->
        fst (executeQuery sql w) = true
        /\ db (snd (executeQuery sql w)) = d'
        /\ calls (snd (executeQuery sql w))
           = (calls w ++ [CallPrepare sql; CallExec sql []])%list)
  /\ log (snd (executeQuery sql w)) = log w.
Proof.
  split; [|split; [|split]].
  - intros Hp. rewrite executeQuery_run. simpl. now rewrite Hp.
  - intros Hp He. rewrite executeQuery_run. simpl. now rewrite Hp, He.
  - intros d' rs Hp He. rewrite executeQuery_run. simpl. rewrite Hp, He.
    simpl. rewrite <- app_assoc. repeat split.
  - apply executeQuery_log.
Qed.

(** C3 (as amended): table and column names go into the SQL text as they
    are given, without any validation: for every name and column list
    [createTable] submits the statement it formats from them, which for a
    name free of place markers is the specified text around that very
    name, and [dropTable] submits [DROP TABLE name;] for every name the
    catalog lists. *)
Theorem names_interpolated_unvalidated
    (n : string) (cols : ColumnList) (w : World) :
  (exists rest,
      calls (snd (createTable n cols w))
      = (calls w ++ CallPrepare (createTable_sql n cols) :: rest)%list)
  /\ (marker_free n = true ->
      createTable_sql n cols = create_table_text n cols)
  /\ (In n (QSqlDatabase_tables (db w)) ->
      exists rest,
        calls (snd (dropTable n w))
        = (calls w ++ CallTables
             :: CallPrepare ("DROP TABLE " ++ n ++ ";") :: rest)%list).
Proof.
  split; [|split].
  - rewrite createTable_run.
    match goal with |- context [executeQuery ?s ?w0] =>
      destruct (executeQuery_calls s w0) as [H|H]; rewrite H end; simpl;
      eexists; reflexivity.
  - apply createTable_sql_text.
  - intros Hin. apply isTablePresent_In in Hin.
    rewrite dropTable_run, Hin. cbv zeta.
    destruct (executeQuery_calls (dropTable_sql n) (record_call CallTables w))
      as [H|H];
      destruct (fst (executeQuery (dropTable_sql n) (record_call CallTables w)));
      cbn [snd calls]; rewrite H; cbn [record_call calls];
      rewrite <- app_assoc; eexists; reflexivity.
Qed.

(** C4 (as amended): [createTable] builds its [CREATE TABLE] statement
    from the ordered column list, one [name clause] item per column in
    the given order, and ends every statement with [WITHOUT ROWID],
    whether or not the definition designates a primary key (stated for
    table names free of place markers). *)
Theorem createTable_sql_columns_in_order (n : string) (cols : ColumnList) :
  marker_free n = true ->
  createTable_sql n cols
  = "CREATE TABLE `" ++ n ++ "` ("
      ++ String.concat ", " (map (fun c => fst c ++ " " ++ snd c) cols)
      ++ ") WITHOUT ROWID;"
  /\ uses_without_rowid (createTable_sql n cols) = true.
Proof.
  intros Hn. rewrite (createTable_sql_text n cols Hn). split; [reflexivity|].
  unfold uses_without_rowid, create_table_text.
  rewrite <- !append_assoc. apply ends_with_app. reflexivity.
Qed.

End CodeFacts.

(* ===================================================================== *)
(** ** The version registry, path by path *)
(* ===================================================================== *)

Section RegistryCode.

Context {D : QtSql}.

Lemma getTableVersion_no_registry (n : string) (w : World) :
  fst (isTablePresent VERSION_TABLE_NAME w) = false ->
  getTableVersion n w = (-1, record_call CallTables w).
Proof.
  intros H. unfold getTableVersion, bind.
  rewrite (surjective_pairing (isTablePresent VERSION_TABLE_NAME w)), H.
  reflexivity.
Qed.

Lemma getTableVersion_no_table (n : string) (w : World) :
  fst (isTablePresent VERSION_TABLE_NAME w) = true ->
  fst (isTablePresent n w) = false ->
  getTableVersion n w = (0, record_call CallTables (record_call CallTables w)).
Proof.
  intros Hreg Hn. unfold getTableVersion.
  rewrite bind_run, Hreg. cbn [negb].
  rewrite bind_run, (isTablePresent_same_db n _ w), Hn by reflexivity. reflexivity.
Qed.

(** The lookup of [getTableVersion] once both tables are listed. *)
Lemma getTableVersion_lookup (n : string) (w : World) :
  fst (isTablePresent VERSION_TABLE_NAME w) = true ->
  fst (isTablePresent n w) = true ->
  getTableVersion n w
  = let w2 := record_call CallTables (record_call CallTables w) in
    let w3 := record_call (CallPrepare SELECT_VERSION_SQL) w2 in
    let w4 := record_call (CallExec SELECT_VERSION_SQL (select_bindings n)) w3 in
    let lost := warned "Cannot find version for table" n in
    if QSqlQuery_prepare_ok (db w) SELECT_VERSION_SQL then
      match QSqlQuery_exec_result (db w) SELECT_VERSION_SQL (select_bindings n) with
      | Some (d', rows) =>
          let w5 := mkWorld d' (calls w4) (log w4) in
          match rows with
          | r :: _ =>
              if QVariant_isValid (r "version") then
                if snd (QVariant_toUInt (r "version"))
                then (int_of_uint (fst (QVariant_toUInt (r "version"))), w5)
                else (-1, lost w5)
              else (-1, lost w5)
          | [] => (-1, lost w5)
          end
      | None => (-1, lost w4)
      end
    else (-1, lost w3).
Proof.
  intros Hreg Hn. unfold getTableVersion.
  rewrite bind_run, Hreg. cbn [negb].
  rewrite bind_run, (isTablePresent_same_db n _ w), Hn by reflexivity. cbn [negb].
  rewrite !isTablePresent_run. cbn [snd].
  unfold bind, QSqlQuery_prepare, QSqlQuery_exec, ret, qWarning, write_log.
  cbn [db calls log record_call fst snd q_sql q_bound QSqlQuery_bindValue
       QSqlQuery_new filter app negb].
  fold (select_bindings n).
  destruct (QSqlQuery_prepare_ok (db w) SELECT_VERSION_SQL); [|reflexivity].
  cbv beta. cbn [db record_call].
  destruct (QSqlQuery_exec_result (db w) SELECT_VERSION_SQL (select_bindings n))
    as [[d' [|r rest]]|]; try reflexivity.
  unfold QSqlQuery_next, QSqlQuery_value. cbn [q_rows q_at].
  destruct (QVariant_isValid (r "version")); [|reflexivity].
  destruct (QVariant_toUInt (r "version")) as [u [|]]; reflexivity.
Qed.

Lemma setTableVersion_no_registry (n : string) (v : Z) (w : World) :
  fst (isTablePresent VERSION_TABLE_NAME w) = false ->
  setTableVersion n v w = (false, record_call CallTables w).
Proof.
  intros H. unfold setTableVersion, bind.
  rewrite (surjective_pairing (isTablePresent VERSION_TABLE_NAME w)), H.
  reflexivity.
Qed.

Lemma setTableVersion_no_table (n : string) (v : Z) (w : World) :
  fst (isTablePresent VERSION_TABLE_NAME w) = true ->
  fst (isTablePresent n w) = false ->
  setTableVersion n v w
  = (false, record_call CallTables (record_call CallTables w)).
Proof.
  intros Hreg Hn. unfold setTableVersion.
  rewrite bind_run, Hreg. cbn [negb].
  rewrite bind_run, (isTablePresent_same_db n _ w), Hn by reflexivity. reflexivity.
Qed.

(** The update of [setTableVersion] once both tables are listed. *)
Lemma setTableVersion_update (n : string) (v : Z) (w : World) :
  fst (isTablePresent VERSION_TABLE_NAME w) = true ->
  fst (isTablePresent n w) = true ->
  setTableVersion n v w
  = let w2 := record_call CallTables (record_call CallTables w) in
    let w3 := record_call (CallPrepare INSERT_VERSION_SQL) w2 in
    let w4 := record_call (CallExec INSERT_VERSION_SQL (insert_bindings n v)) w3 in
    let lost := warned "Cannot save version for table" n in
    if QSqlQuery_prepare_ok (db w) INSERT_VERSION_SQL then
      match QSqlQuery_exec_result (db w) INSERT_VERSION_SQL (insert_bindings n v) with
      | Some (d', _) => (true, mkWorld d' (calls w4) (log w4))
      | None => (false, lost w4)
      end
    else (false, lost w3).
Proof.
  intros Hreg Hn. unfold setTableVersion.
  rewrite bind_run, Hreg. cbn [negb].
  rewrite bind_run, (isTablePresent_same_db n _ w), Hn by reflexivity. cbn [negb].
  rewrite !isTablePresent_run. cbn [snd].
  unfold bind, QSqlQuery_prepare, QSqlQuery_exec, ret, qWarning, write_log.
  cbn [db calls log record_call fst snd q_sql q_bound QSqlQuery_new].
  change (q_bound
            (QSqlQuery_bindValue
               (QSqlQuery_bindValue (mkQuery INSERT_VERSION_SQL [] [] None)
                  ":tableName" (QV_String n))
               ":version" (QV_Int v)))
    with (insert_bindings n v).
  change (q_sql
            (QSqlQuery_bindValue
               (QSqlQuery_bindValue (mkQuery INSERT_VERSION_SQL [] [] None)
                  ":tableName" (QV_String n))
               ":version" (QV_Int v)))
    with INSERT_VERSION_SQL.
  destruct (QSqlQuery_prepare_ok (db w) INSERT_VERSION_SQL); [|reflexivity].
  cbv beta. cbn [db record_call].
  destruct (QSqlQuery_exec_result (db w) INSERT_VERSION_SQL (insert_bindings n v))
    as [[d' rs]|]; reflexivity.
Qed.

End RegistryCode.

(* ===================================================================== *)
(** ** The contract of the table manager and of the version registry *)
(* ===================================================================== *)

Section Contract.

Context {D : QtSql} {L : SqliteLaws D}.

Lemma int_round_trip (v : Z) :
  int_range v -> int_of_uint (uint_of_Z v) = v.
Proof.
  unfold int_range, int_of_uint, uint_of_Z. intros Hv.
  destruct (Z_lt_le_dec v 0) as [Hneg|Hpos].
  - replace (v mod 2 ^ 32) with (v + 2 ^ 32)
      by (apply Z.mod_unique with (q := -1); lia).
    destruct (Z.ltb_spec (v + 2 ^ 32) (2 ^ 31)); lia.
  - rewrite Z.mod_small by lia.
    destruct (Z.ltb_spec v (2 ^ 31)); lia.
Qed.

Lemma int_of_small_uint (k : Z) : 0 <= k < 2 ^ 31 -> int_of_uint k = k.
Proof.
  unfold int_of_uint. intros Hk. destruct (Z.ltb_spec k (2 ^ 31)); lia.
Qed.

(** [getTableVersion] leaves the database alone on every path. *)
Lemma getTableVersion_db (n : string) (w : World) :
  db (snd (getTableVersion n w)) = db w.
Proof.
  destruct (fst (isTablePresent VERSION_TABLE_NAME w)) eqn:Hreg;
    [|now rewrite getTableVersion_no_registry].
  destruct (fst (isTablePresent n w)) eqn:Hn;
    [|now rewrite getTableVersion_no_table].
  rewrite getTableVersion_lookup by assumption. cbv zeta.
  destruct (QSqlQuery_prepare_ok (db w) SELECT_VERSION_SQL); [|reflexivity].
  destruct (QSqlQuery_exec_result (db w) SELECT_VERSION_SQL (select_bindings n))
    as [[d' rs]|] eqn:He; [|reflexivity].
  apply select_readonly in He. subst d'.
  destruct rs as [|r rest]; [reflexivity|].
  destruct (QVariant_isValid (r "version")); [|reflexivity].
  destruct (snd (QVariant_toUInt (r "version"))); reflexivity.
Qed.

(** C1: for every table name, [getTableVersion] follows the four-case
    state table: it returns -1 when the version registry table is absent;
    0 when the registry table is present and the queried table is absent;
    the stored non-negative version when both are present and a valid row
    for the name exists; and -1 when both are present and the row is
    missing or its version value is invalid. *)
Theorem getTableVersion_state_table (n : string) (w : World) :
  (fst (isTablePresent VERSION_TABLE_NAME w) = false ->
   fst (getTableVersion n w) = -1)
  /\ (fst (isTablePresent VERSION_TABLE_NAME w) = true ->
      fst (isTablePresent n w) = false ->
      fst (getTableVersion n w) = 0)
  /\ (forall v k,
        fst (isTablePresent VERSION_TABLE_NAME w) = true ->
        fst (isTablePresent n w) = true ->
        registry_row (db w) n = Some v ->
        QVariant_isValid v = true ->
        QVariant_toUInt v = (k, true) ->
        0 <= k < 2 ^ 31 ->
        fst (getTableVersion n w) = k)
  /\ (fst (isTablePresent VERSION_TABLE_NAME w) = true ->
      fst (isTablePresent n w) = true ->
      registry_row (db w) n = None
      \/ (exists v, registry_row (db w) n = Some v
                    /\ (QVariant_isValid v = false
                        \/ snd (QVariant_toUInt v) = false)) ->
      fst (getTableVersion n w) = -1).
Proof.
  split; [|split; [|split]].
  - intros Hreg. now rewrite getTableVersion_no_registry.
  - intros Hreg Hn. now rewrite getTableVersion_no_table.
  - intros v k Hreg Hn Hrow Hvalid Hconv Hk.
    rewrite getTableVersion_lookup by assumption. cbv zeta.
    destruct (select_hit _ _ _ Hrow) as [Hp [r [rest [He Hr]]]].
    rewrite Hp, He, Hr, Hvalid, Hconv. cbn [fst snd].
    apply int_of_small_uint, Hk.
  - intros Hreg Hn Hrow.
    rewrite getTableVersion_lookup by assumption. cbv zeta.
    destruct Hrow as [Hnone | [v [Hsome Hbad]]].
    + destruct (QSqlQuery_prepare_ok (db w) SELECT_VERSION_SQL);
        [|reflexivity].
      destruct (QSqlQuery_exec_result (db w) SELECT_VERSION_SQL (select_bindings n))
        as [[d' rs]|] eqn:He; [|reflexivity].
      rewrite (select_miss _ _ _ _ Hnone He). reflexivity.
    + destruct (select_hit _ _ _ Hsome) as [Hp [r [rest [He Hr]]]].
      rewrite Hp, He, Hr.
      destruct Hbad as [Hinv | Hconv].
      * now rewrite Hinv.
      * rewrite Hconv. now destruct (QVariant_isValid v).
Qed.

(** C2: for every table name and version, [setTableVersion] returns
    false and does not touch the database (it only consults the catalog)
    when the registry table is absent or the target table is absent;
    otherwise it submits the insert-or-replace of the (name, version) row
    and returns true exactly when that statement succeeds, the registry
    then holding the version for the name, its other rows and the catalog
    being unchanged. *)
Theorem setTableVersion_guarded (n : string) (v : Z) (w : World) :
  (fst (isTablePresent VERSION_TABLE_NAME w) = false
   \/ fst (isTablePresent n w) = false ->
   fst (setTableVersion n v w) = false
   /\ db (snd (setTableVersion n v w)) = db w
   /\ forall c, In c (calls (snd (setTableVersion n v w))) ->
                In c (calls w) \/ c = CallTables)
  /\ (fst (isTablePresent VERSION_TABLE_NAME w) = true ->
      fst (isTablePresent n w) = true ->
      (fst (setTableVersion n v w) = true <->
       QSqlQuery_prepare_ok (db w) INSERT_VERSION_SQL = true
       /\ QSqlQuery_exec_result (db w) INSERT_VERSION_SQL (insert_bindings n v)
          <> None)
      /\ (fst (setTableVersion n v w) = true ->
          registry_row (db (snd (setTableVersion n v w))) n = Some (QV_LongLong v)
          /\ (forall m, m <> n ->
                registry_row (db (snd (setTableVersion n v w))) m
                = registry_row (db w) m)
          /\ QSqlDatabase_tables (db (snd (setTableVersion n v w)))
             = QSqlDatabase_tables (db w))
      /\ (fst (setTableVersion n v w) = false ->
          db (snd (setTableVersion n v w)) = db w)).
Proof.
  split.
  - intros Habsent.
    destruct (fst (isTablePresent VERSION_TABLE_NAME w)) eqn:Hreg.
    + destruct Habsent as [Habs|Habs]; [discriminate|].
      rewrite setTableVersion_no_table by assumption.
      repeat split. cbn [snd record_call calls]. intros c Hc.
      rewrite !in_app_iff in Hc. simpl in Hc. intuition.
    + rewrite setTableVersion_no_registry by assumption.
      repeat split. cbn [snd record_call calls]. intros c Hc.
      rewrite !in_app_iff in Hc. simpl in Hc. intuition.
  - intros Hreg Hn. rewrite setTableVersion_update by assumption. cbv zeta.
    destruct (QSqlQuery_prepare_ok (db w) INSERT_VERSION_SQL).
    + destruct (QSqlQuery_exec_result (db w) INSERT_VERSION_SQL (insert_bindings n v))
        as [[d' rs]|] eqn:He; cbn [fst snd db warned].
      * destruct (insert_effect _ _ _ _ _ He) as [Ht [Hrow Hother]].
        repeat split; auto; try discriminate.
      * repeat split; auto; try discriminate; intros [_ H]; congruence.
    + cbn [fst snd db warned].
      repeat split; auto; try discriminate; intros [H _]; congruence.
Qed.

(** What a successful [createTable] does to the database, for a name that
    is an identifier. *)
Lemma createTable_effect (n : string) (cols : ColumnList) (w : World) :
  Ident.valid_identifier n = true ->
  well_formed_columns cols ->
  fst (createTable n cols w) = true ->
  (forall m, In m (QSqlDatabase_tables (db (snd (createTable n cols w))))
             <-> m = n \/ In m (QSqlDatabase_tables (db w)))
  /\ forall m, registry_row (db (snd (createTable n cols w))) m
               = registry_row (db w) m.
Proof.
  intros Hn Hcols. rewrite createTable_run. intros Hok.
  destruct (executeQuery_true _ _ Hok) as [_ [rs He]].
  cbn [db] in He.
  rewrite (createTable_sql_text n cols (valid_identifier_marker_free n Hn)) in He.
  rewrite (createTable_sql_text n cols (valid_identifier_marker_free n Hn)).
  exact (create_effect _ _ _ _ _ Hn Hcols He).
Qed.

(** C5: for every identifier-valid table name and well-formed column
    definition, a successful [createTable] makes [isTablePresent] true for
    that name immediately afterward; [createTable] performs no
    pre-existence check (it prepares its statement without consulting the
    catalog) and returns false when a table of that name already
    exists. *)
Theorem createTable_then_present
    (n : string) (cols : ColumnList) (w : World) :
  Ident.valid_identifier n = true ->
  well_formed_columns cols ->
  (fst (createTable n cols w) = true ->
   fst (isTablePresent n (snd (createTable n cols w))) = true)
  /\ (calls (snd (createTable n cols w))
      = (calls w ++ [CallPrepare (createTable_sql n cols)])%list
      \/ calls (snd (createTable n cols w))
         = (calls w ++ [CallPrepare (createTable_sql n cols);
                        CallExec (createTable_sql n cols) []])%list)
  /\ (fst (isTablePresent n w) = true ->
      fst (createTable n cols w) = false).
Proof.
  intros Hn Hcols. split; [|split].
  - intros Hok. apply isTablePresent_In.
    apply (createTable_effect n cols w Hn Hcols Hok). now left.
  - rewrite createTable_run.
    match goal with |- context [executeQuery ?s ?w0] =>
      exact (executeQuery_calls s w0) end.
  - intros Hin. apply isTablePresent_In in Hin.
    destruct (fst (createTable n cols w)) eqn:Hok; [|reflexivity].
    rewrite createTable_run in Hok.
    destruct (executeQuery_true _ _ Hok) as [Hp [rs He]].
    cbn [db] in Hp, He.
    rewrite (createTable_sql_text n cols (valid_identifier_marker_free n Hn))
      in Hp, He.
    rewrite (create_existing _ _ _ Hn Hcols Hin Hp) in He. discriminate.
Qed.

(** X23: [dropTable] on identifiers is idempotent.  For every table name,
    when the table is absent it returns true without submitting any
    statement, and when the table is present it submits [DROP TABLE name;]
    and returns the success of that statement.  For a name that is an
    identifier, after a success [isTablePresent] is false and a second
    [dropTable] again returns true without a statement. *)
Theorem dropTable_idempotent (n : string) (w : World) :
  (fst (isTablePresent n w) = false ->
   dropTable n w = (true, record_call CallTables w))
  /\ (fst (isTablePresent n w) = true ->
      (exists rest,
          calls (snd (dropTable n w))
          = (calls w ++ CallTables
               :: CallPrepare ("DROP TABLE " ++ n ++ ";") :: rest)%list)
      /\ fst (dropTable n w)
         = fst (executeQuery ("DROP TABLE " ++ n ++ ";")
                  (record_call CallTables w))
      /\ (Ident.valid_identifier n = true ->
          fst (dropTable n w) = true ->
          fst (isTablePresent n (snd (dropTable n w))) = false
          /\ dropTable n (snd (dropTable n w))
             = (true, record_call CallTables (snd (dropTable n w))))).
Proof.
  split.
  - intros Habs. now rewrite dropTable_run, Habs.
  - intros Hin. rewrite dropTable_run, Hin. cbv zeta.
    fold (dropTable_sql n).
    split; [|split].
    + destruct (executeQuery_calls (dropTable_sql n) (record_call CallTables w))
        as [H|H];
        destruct (fst (executeQuery (dropTable_sql n) (record_call CallTables w)));
        cbn [snd calls]; rewrite H; cbn [record_call calls];
        rewrite <- app_assoc; eexists; reflexivity.
    + now destruct (fst (executeQuery (dropTable_sql n) (record_call CallTables w))).
    + intros Hn.
      destruct (fst (executeQuery (dropTable_sql n) (record_call CallTables w)))
        eqn:Hok; cbn [fst snd]; [intros _|discriminate].
      destruct (executeQuery_true _ _ Hok) as [_ [rs He]].
      cbn [db record_call] in He.
      destruct (drop_effect _ _ _ _ Hn (proj1 (isTablePresent_In n w) Hin) He)
        as [Hcat _].
      assert (Hgone : fst (isTablePresent n
                (snd (executeQuery (dropTable_sql n) (record_call CallTables w))))
              = false).
      { apply not_true_is_false. intros Hp.
        apply isTablePresent_In, Hcat in Hp. now destruct Hp. }
      split; [exact Hgone|]. now rewrite dropTable_run, Hgone.
Qed.

(** C7: round trip of the version registry: for every table name and
    every version (a C [int]), after a successful [createTable] followed
    by a successful [setTableVersion], [getTableVersion] returns that
    version. *)
Theorem version_round_trip
    (n : string) (cols : ColumnList) (v : Z) (w : World) :
  int_range v ->
  fst (createTable n cols w) = true ->
  fst (setTableVersion n v (snd (createTable n cols w))) = true ->
  fst (getTableVersion n
         (snd (setTableVersion n v (snd (createTable n cols w))))) = v.
Proof.
  intros Hv _. set (w1 := snd (createTable n cols w)). intros Hset.
  destruct (fst (isTablePresent VERSION_TABLE_NAME w1)) eqn:Hreg;
    [|rewrite setTableVersion_no_registry in Hset by assumption; discriminate].
  destruct (fst (isTablePresent n w1)) eqn:Hn;
    [|rewrite setTableVersion_no_table in Hset by assumption; discriminate].
  rewrite setTableVersion_update in * by assumption. cbv zeta in *.
  destruct (QSqlQuery_prepare_ok (db w1) INSERT_VERSION_SQL); [|discriminate].
  destruct (QSqlQuery_exec_result (db w1) INSERT_VERSION_SQL (insert_bindings n v))
    as [[d' rs]|] eqn:He; [|discriminate].
  destruct (insert_effect _ _ _ _ _ He) as [Ht [Hrow _]].
  cbn [snd].
  match goal with |- fst (getTableVersion n ?x) = _ => set (w2 := x) end.
  assert (Hreg2 : fst (isTablePresent VERSION_TABLE_NAME w2) = true).
  { apply isTablePresent_In. cbn [w2 db]. rewrite Ht.
    now apply isTablePresent_In. }
  assert (Hn2 : fst (isTablePresent n w2) = true).
  { apply isTablePresent_In. cbn [w2 db]. rewrite Ht.
    now apply isTablePresent_In. }
  rewrite getTableVersion_lookup by assumption. cbv zeta.
  change (db w2) with d'.
  destruct (select_hit _ _ _ Hrow) as [Hp [r [rest [Hs Hr]]]].
  rewrite Hp, Hs, Hr. cbn [QVariant_isValid QVariant_toUInt fst snd].
  apply int_round_trip, Hv.
Qed.

(** C10: [isTablePresent] and [getTableVersion] are read-only: for every
    table name and every database state, either call leaves the database
    (the set of tables, their contents, every row of the registry) as it
    was, whatever it returns. *)
Theorem reads_leave_database (n : string) (w : World) :
  db (snd (isTablePresent n w)) = db w
  /\ db (snd (getTableVersion n w)) = db w
  /\ QSqlDatabase_tables (db (snd (getTableVersion n w)))
     = QSqlDatabase_tables (db w)
  /\ forall m, registry_row (db (snd (getTableVersion n w))) m
               = registry_row (db w) m.
Proof.
  repeat split; try intros m; now rewrite ?getTableVersion_db.
Qed.

(** A row the registry has after an operation was there before it, or is
    the row of a table the catalog listed before it. *)
Lemma run_op_registered (op : CoreOp) (w : World) (m : string) :
  op_well_formed op ->
  registered (run_op op w) m ->
  registered w m \/ In m (QSqlDatabase_tables (db w)).
Proof.
  unfold registered.
  destruct op as [|n|n cols|n|n|n v]; cbn [run_op op_well_formed].
  - (* ensureVersionTable *)
    intros _. unfold ensureVersionTable.
    destruct (fst (executeQuery ENSURE_VERSION_TABLE_SQL w)) eqn:Hok.
    + destruct (executeQuery_true _ _ Hok) as [_ [rs He]].
      destruct (ensure_effect _ _ _ He) as [_ Hrows].
      rewrite Hrows. now left.
    + rewrite (executeQuery_false _ _ Hok). now left.
  - (* isTablePresent *)
    intros _. rewrite isTablePresent_db. now left.
  - (* createTable *)
    intros [Hn Hcols].
    destruct (fst (createTable n cols w)) eqn:Hok.
    + destruct (createTable_effect n cols w Hn Hcols Hok) as [_ Hrows].
      rewrite Hrows. now left.
    + rewrite createTable_run in *.
      rewrite (executeQuery_false _ _ Hok). now left.
  - (* dropTable *)
    intros Hn. rewrite dropTable_run.
    destruct (fst (isTablePresent n w)) eqn:Hin; [|now left]. cbv zeta.
    destruct (fst (executeQuery (dropTable_sql n) (record_call CallTables w)))
      eqn:Hok; cbn [snd db].
    + destruct (executeQuery_true _ _ Hok) as [_ [rs He]].
      cbn [db record_call] in He.
      destruct (drop_effect _ _ _ _ Hn (proj1 (isTablePresent_In n w) Hin) He)
        as [_ Hrows].
      rewrite (Hrows m).
      destruct (String.eqb n VERSION_TABLE_NAME); [congruence|now left].
    + rewrite (executeQuery_false _ _ Hok). now left.
  - (* getTableVersion *)
    intros _. rewrite getTableVersion_db. now left.
  - (* setTableVersion *)
    intros _.
    destruct (fst (isTablePresent VERSION_TABLE_NAME w)) eqn:Hreg;
      [|rewrite setTableVersion_no_registry by assumption; now left].
    destruct (fst (isTablePresent n w)) eqn:Hn;
      [|rewrite setTableVersion_no_table by assumption; now left].
    rewrite setTableVersion_update by assumption. cbv zeta.
    destruct (QSqlQuery_prepare_ok (db w) INSERT_VERSION_SQL); [|now left].
    destruct (QSqlQuery_exec_result (db w) INSERT_VERSION_SQL (insert_bindings n v))
      as [[d' rs]|] eqn:He; [|now left].
    cbn [snd db].
    destruct (insert_effect _ _ _ _ _ He) as [_ [_ Hother]].
    destruct (string_dec m n) as [->|Hmn].
    + intros _. right. now apply isTablePresent_In.
    + rewrite (Hother m Hmn). now left.
Qed.

Lemma once_existed_later (w : World) (h : list World) (n : string) :
  once_existed h n -> once_existed (w :: h) n.
Proof. intros [w' [Hin Hn]]. exists w'. split; [now right|exact Hn]. Qed.

(** [dropTable] on a table other than the registry keeps every row of
    the registry. *)
Lemma dropTable_keeps_rows (n : string) (w : World) (m : string) :
  Ident.valid_identifier n = true ->
  n <> VERSION_TABLE_NAME ->
  registry_row (db (snd (dropTable n w))) m = registry_row (db w) m.
Proof.
  intros Hn Hreg. rewrite dropTable_run.
  destruct (fst (isTablePresent n w)) eqn:Hin; [|reflexivity]. cbv zeta.
  destruct (fst (executeQuery (dropTable_sql n) (record_call CallTables w)))
    eqn:Hok; cbn [snd db].
  - destruct (executeQuery_true _ _ Hok) as [_ [rs He]].
    cbn [db record_call] in He.
    destruct (drop_effect _ _ _ _ Hn (proj1 (isTablePresent_In n w) Hin) He)
      as [_ Hrows].
    rewrite (Hrows m).
    destruct (String.eqb_spec n VERSION_TABLE_NAME); [contradiction|reflexivity].
  - now rewrite (executeQuery_false _ _ Hok).
Qed.

(** C9 (as amended): reachable-state invariant of the registry, for table
    names that are identifiers: in every run of the operations of this
    core in which [createTable] and [dropTable] are given identifiers
    (and [createTable] a well-formed column definition), started where
    each registered name is a listed table, every table name the registry
    has a row for is a table that exists or once existed in the database;
    [setTableVersion] writes a row only for a table the catalog lists, and
    [dropTable] of an identifier other than the registry deletes no row
    of the registry. *)
Theorem registry_rows_once_existed
    (w0 w : World) (past : list World) (n : string) :
  ((forall m, registered w0 m -> In m (QSqlDatabase_tables (db w0))) ->
   history w0 (w :: past) ->
   registered w n ->
   once_existed (w :: past) n)
  /\ (forall v,
        fst (setTableVersion n v w) = true ->
        In n (QSqlDatabase_tables (db w)))
  /\ (Ident.valid_identifier n = true ->
      n <> VERSION_TABLE_NAME ->
      forall m, registry_row (db (snd (dropTable n w))) m
                = registry_row (db w) m).
Proof.
  split; [|split].
  - intros Hinit Hrun. remember (w :: past) as h eqn:Hh.
    revert w past n Hh.
    induction Hrun as [|op w1 h1 Hrun IH Hop]; intros w past n Hh Hreg.
    + injection Hh as <- <-. exists w0. split; [now left|auto].
    + injection Hh as <- <-.
      destruct (run_op_registered op w1 n Hop Hreg) as [Hbefore|Hlisted].
      * apply once_existed_later. now apply (IH w1 h1 n eq_refl).
      * exists w1. split; [right; now left|exact Hlisted].
  - intros v Hset. apply isTablePresent_In.
    destruct (fst (isTablePresent n w)) eqn:Hn; [reflexivity|].
    destruct (fst (isTablePresent VERSION_TABLE_NAME w)) eqn:Hreg.
    + rewrite setTableVersion_no_table in Hset by assumption. discriminate.
    + rewrite setTableVersion_no_registry in Hset by assumption. discriminate.
  - intros Hn Hreg m. now apply dropTable_keeps_rows.
Qed.

End Contract.

(* ===================================================================== *)
(** ** The statements on the executable driver *)
(* ===================================================================== *)

Module Examples.

Import Toy.

Lemma measurements_well_formed : well_formed_columns measurements.
Proof.
  split.
  - repeat constructor.
  - repeat constructor; simpl; intuition discriminate.
Qed.

(** The four rows of the state table of [getTableVersion]. *)
Lemma getTableVersion_state_table_witness :
  (fst (isTablePresent VERSION_TABLE_NAME fresh) = false
   /\ fst (getTableVersion "Measurements" fresh) = -1)
  /\ (fst (isTablePresent VERSION_TABLE_NAME w_registry) = true
      /\ fst (isTablePresent "Measurements" w_registry) = false
      /\ fst (getTableVersion "Measurements" w_registry) = 0)
  /\ (registry_row (db w_versioned) "Measurements" = Some (QV_LongLong 3)
      /\ fst (getTableVersion "Measurements" w_versioned) = 3)
  /\ (fst (isTablePresent "Measurements" w_table) = true
      /\ registry_row (db w_table) "Measurements" = None
      /\ fst (getTableVersion "Measurements" w_table) = -1).
Proof.
  pose proof (@getTableVersion_state_table driver ToyFacts.laws "Measurements")
    as T.
  split; [|split; [|split]].
  - split; [reflexivity|].
    destruct (T fresh) as (T1 & _). apply T1. reflexivity.
  - split; [reflexivity|]. split; [reflexivity|].
    destruct (T w_registry) as (_ & T2 & _). apply T2; reflexivity.
  - split; [reflexivity|].
    destruct (T w_versioned) as (_ & _ & T3 & _).
    apply (T3 (QV_LongLong 3) 3); try reflexivity. lia.
  - split; [reflexivity|]. split; [reflexivity|].
    destruct (T w_table) as (_ & _ & _ & T4).
    apply T4; try reflexivity. left. reflexivity.
Defined.

(** [setTableVersion] without a registry, and with both tables there. *)
Lemma setTableVersion_guarded_witness :
  (fst (isTablePresent VERSION_TABLE_NAME fresh) = false
   /\ fst (setTableVersion "Measurements" 3 fresh) = false
   /\ db (snd (setTableVersion "Measurements" 3 fresh)) = db fresh)
  /\ (fst (isTablePresent VERSION_TABLE_NAME w_table) = true
      /\ fst (isTablePresent "Measurements" w_table) = true
      /\ fst (setTableVersion "Measurements" 3 w_table) = true
      /\ registry_row (db (snd (setTableVersion "Measurements" 3 w_table)))
           "Measurements" = Some (QV_LongLong 3)).
Proof.
  pose proof (@setTableVersion_guarded driver ToyFacts.laws "Measurements" 3)
    as T.
  split.
  - split; [reflexivity|].
    destruct (T fresh) as [T1 _].
    destruct (T1 (or_introl eq_refl)) as (Hf & Hdb & _).
    split; assumption.
  - split; [reflexivity|]. split; [reflexivity|].
    destruct (T w_table) as [_ T2].
    destruct (T2 eq_refl eq_refl) as (Hiff & Hrow & _).
    assert (Hok : fst (setTableVersion "Measurements" 3 w_table) = true).
    { apply Hiff. split; [reflexivity|discriminate]. }
    split; [exact Hok|]. apply (Hrow Hok).
Defined.

(** C3 (the claim as stated fails): neither ["my table"] nor
    ["bad column"] is on the allow-list, yet [createTable] prepares and
    executes a statement holding both, and [dropTable] then prepares one
    holding the table name. *)
Lemma unvalidated_names_reach_sql :
  Ident.valid_identifier "my table" = false
  /\ Ident.valid_identifier "bad column" = false
  /\ fst (createTable "my table" [("bad column", "TEXT PRIMARY KEY")] fresh)
     = true
  /\ calls (snd (createTable "my table" [("bad column", "TEXT PRIMARY KEY")] fresh))
     = [CallPrepare "CREATE TABLE `my table` (bad column TEXT PRIMARY KEY) WITHOUT ROWID;";
        CallExec "CREATE TABLE `my table` (bad column TEXT PRIMARY KEY) WITHOUT ROWID;" []]
  /\ calls (snd (dropTable "my table" (mkWorld (db w_spaced) [] [])))
     = [CallTables; CallPrepare "DROP TABLE my table;"]
  /\ ~ createTable_validates "my table" [("bad column", "TEXT PRIMARY KEY")] fresh
  /\ ~ dropTable_validates "my table" (mkWorld (db w_spaced) [] []).
Proof.
  repeat split.
  - intros H.
    destruct (H "CREATE TABLE `my table` (bad column TEXT PRIMARY KEY) WITHOUT ROWID;")
      as [Hn _]; [left; reflexivity|discriminate].
  - intros H.
    assert (Hn : Ident.valid_identifier "my table" = true)
      by (apply (H "DROP TABLE my table;"); right; left; reflexivity).
    discriminate.
Qed.

Lemma names_interpolated_unvalidated_witness :
  marker_free "my table" = true
  /\ In "my table" (QSqlDatabase_tables (db w_spaced))
  /\ createTable_sql "my table" measurements
     = create_table_text "my table" measurements
  /\ exists rest,
       calls (snd (dropTable "my table" w_spaced))
       = (calls w_spaced ++ CallTables
            :: CallPrepare ("DROP TABLE " ++ "my table" ++ ";") :: rest)%list.
Proof.
  destruct (@names_interpolated_unvalidated driver "my table" measurements w_spaced)
    as (_ & T2 & T3).
  split; [reflexivity|]. split; [left; reflexivity|].
  split; [apply T2; reflexivity|apply T3; left; reflexivity].
Defined.

(** C4 (the claim as stated fails): the definition designates no primary
    key, and the statement [createTable] submits for it still ends with
    [WITHOUT ROWID]. *)
Lemma without_rowid_without_primary_key :
  designates_primary_key [("a", "INTEGER")] = false
  /\ createTable_sql "t" [("a", "INTEGER")]
     = "CREATE TABLE `t` (a INTEGER) WITHOUT ROWID;"
  /\ uses_without_rowid (createTable_sql "t" [("a", "INTEGER")]) = true
  /\ calls (snd (createTable "t" [("a", "INTEGER")] fresh))
     = [CallPrepare "CREATE TABLE `t` (a INTEGER) WITHOUT ROWID;"]
  /\ ~ without_rowid_only_for_primary_key "t" [("a", "INTEGER")].
Proof.
  repeat split. intros H. specialize (H eq_refl). discriminate.
Qed.

Lemma createTable_sql_columns_in_order_witness :
  marker_free "Measurements" = true
  /\ createTable_sql "Measurements" measurements
     = "CREATE TABLE `Measurements` (id INTEGER PRIMARY KEY, weight REAL) WITHOUT ROWID;"
  /\ uses_without_rowid (createTable_sql "Measurements" measurements) = true.
Proof.
  split; [reflexivity|].
  destruct (createTable_sql_columns_in_order "Measurements" measurements eq_refl)
    as [T1 T2].
  split; [exact T1|exact T2].
Defined.

Lemma createTable_then_present_witness :
  Ident.valid_identifier "Measurements" = true
  /\ fst (createTable "Measurements" measurements w_registry) = true
  /\ fst (isTablePresent "Measurements" w_table) = true
  /\ fst (createTable "Measurements" measurements w_table) = false.
Proof.
  destruct (@createTable_then_present driver ToyFacts.laws
              "Measurements" measurements w_registry eq_refl
              measurements_well_formed) as (T1 & _ & _).
  destruct (@createTable_then_present driver ToyFacts.laws
              "Measurements" measurements w_table eq_refl
              measurements_well_formed) as (_ & _ & T3).
  split; [reflexivity|]. split; [reflexivity|].
  split; [apply T1; reflexivity|apply T3; reflexivity].
Defined.

Lemma dropTable_idempotent_witness :
  (fst (isTablePresent "Measurements" w_registry) = false
   /\ dropTable "Measurements" w_registry
      = (true, record_call CallTables w_registry))
  /\ fst (isTablePresent "Measurements" w_versioned) = true
  /\ Ident.valid_identifier "Measurements" = true
  /\ fst (dropTable "Measurements" w_versioned) = true
  /\ fst (isTablePresent "Measurements" w_dropped) = false
  /\ dropTable "Measurements" w_dropped
     = (true, record_call CallTables w_dropped).
Proof.
  destruct (@dropTable_idempotent driver ToyFacts.laws "Measurements" w_registry)
    as [T1 _].
  destruct (@dropTable_idempotent driver ToyFacts.laws "Measurements" w_versioned)
    as [_ T2].
  destruct (T2 eq_refl) as (_ & _ & T3).
  split; [split; [reflexivity|apply T1; reflexivity]|].
  split; [reflexivity|]. split; [reflexivity|]. split; [reflexivity|].
  apply T3; reflexivity.
Defined.

Lemma version_round_trip_witness :
  int_range 3
  /\ fst (createTable "Measurements" measurements w_registry) = true
  /\ fst (setTableVersion "Measurements" 3 w_table) = true
  /\ fst (getTableVersion "Measurements" w_versioned) = 3.
Proof.
  split; [unfold int_range; lia|]. split; [reflexivity|].
  split; [reflexivity|].
  apply (@version_round_trip driver ToyFacts.laws
           "Measurements" measurements 3 w_registry);
    [unfold int_range; lia|reflexivity|reflexivity].
Defined.

(** C8 (the claim as stated fails): a statement that cannot be prepared
    and one that cannot be executed both make [executeQuery] return
    false, and neither leaves a line in the log. *)
Lemma executeQuery_failure_not_logged :
  (QSqlQuery_prepare_ok (db fresh) "DROP TABLE nothing;" = false
   /\ fst (executeQuery "DROP TABLE nothing;" fresh) = false
   /\ log fresh = []
   /\ log (snd (executeQuery "DROP TABLE nothing;" fresh)) = [])
  /\ (QSqlQuery_prepare_ok (db w_registry) INSERT_VERSION_SQL = true
      /\ QSqlQuery_exec_result (db w_registry) INSERT_VERSION_SQL [] = None
      /\ fst (executeQuery INSERT_VERSION_SQL w_registry) = false
      /\ log w_registry = []
      /\ log (snd (executeQuery INSERT_VERSION_SQL w_registry)) = [])
  /\ ~ failure_is_logged "DROP TABLE nothing;" fresh
  /\ ~ failure_is_logged INSERT_VERSION_SQL w_registry.
Proof.
  repeat split; intros H; destruct (H eq_refl) as [line Hline];
    exact Hline.
Qed.

Lemma executeQuery_outcomes_witness :
  (QSqlQuery_prepare_ok (db fresh) "DROP TABLE nothing;" = false
   /\ executeQuery "DROP TABLE nothing;" fresh
      = (false, record_call (CallPrepare "DROP TABLE nothing;") fresh))
  /\ (QSqlQuery_prepare_ok (db w_registry) INSERT_VERSION_SQL = true
      /\ QSqlQuery_exec_result (db w_registry) INSERT_VERSION_SQL [] = None
      /\ fst (executeQuery INSERT_VERSION_SQL w_registry) = false)
  /\ (QSqlQuery_prepare_ok (db w_versioned) "DROP TABLE Measurements;" = true
      /\ fst (executeQuery "DROP TABLE Measurements;" w_versioned) = true).
Proof.
  split; [|split].
  - split; [reflexivity|].
    destruct (@executeQuery_outcomes driver "DROP TABLE nothing;" fresh)
      as (T1 & _).
    apply T1. reflexivity.
  - split; [reflexivity|]. split; [reflexivity|].
    destruct (@executeQuery_outcomes driver INSERT_VERSION_SQL w_registry)
      as (_ & T2 & _).
    rewrite (T2 eq_refl eq_refl). reflexivity.
  - split; [reflexivity|].
    destruct (@executeQuery_outcomes driver "DROP TABLE Measurements;" w_versioned)
      as (_ & _ & T3 & _).
    apply (T3 (mkDb ["TablesVersions"] [("Measurements", QV_LongLong 3)]) []);
      reflexivity.
Defined.

(** The run: registry, table, version, drop.  The row of [Measurements]
    outlives the table. *)
Lemma registry_rows_once_existed_witness :
  history fresh [w_dropped; w_versioned; w_table; w_registry; fresh]
  /\ registered w_dropped "Measurements"
  /\ ~ In "Measurements" (QSqlDatabase_tables (db w_dropped))
  /\ once_existed [w_dropped; w_versioned; w_table; w_registry; fresh]
       "Measurements"
  /\ (fst (setTableVersion "Measurements" 3 w_table) = true
      /\ In "Measurements" (QSqlDatabase_tables (db w_table)))
  /\ ("Measurements" <> VERSION_TABLE_NAME
      /\ registry_row (db (snd (dropTable "Measurements" w_versioned)))
           "Measurements"
         = registry_row (db w_versioned) "Measurements").
Proof.
  assert (H : history fresh [w_dropped; w_versioned; w_table; w_registry; fresh]).
  { apply (history_step fresh (OpDropTable "Measurements")); [|reflexivity].
    apply (history_step fresh (OpSetTableVersion "Measurements" 3)); [|exact I].
    apply (history_step fresh (OpCreateTable "Measurements" measurements));
      [|split; [reflexivity|exact measurements_well_formed]].
    apply (history_step fresh OpEnsureVersionTable); [|exact I].
    apply history_start. }
  split; [exact H|]. split; [discriminate|].
  split; [simpl; intuition discriminate|].
  destruct (@registry_rows_once_existed driver ToyFacts.laws fresh w_dropped
              [w_versioned; w_table; w_registry; fresh] "Measurements")
    as (T1 & _).
  destruct (@registry_rows_once_existed driver ToyFacts.laws fresh w_table
              [w_registry; fresh] "Measurements")
    as (_ & T2 & _).
  destruct (@registry_rows_once_existed driver ToyFacts.laws fresh w_versioned
              [w_table; w_registry; fresh] "Measurements")
    as (_ & _ & T3).
  split; [|split].
  - apply T1; [|exact H|discriminate].
    intros m Hm. exfalso. apply Hm. reflexivity.
  - split; [reflexivity|]. apply (T2 3). reflexivity.
  - split; [discriminate|]. apply T3; [reflexivity|discriminate].
Defined.

Lemma reads_leave_database_witness :
  db (snd (isTablePresent "Measurements" w_versioned)) = db w_versioned
  /\ fst (getTableVersion "Measurements" w_versioned) = 3
  /\ db (snd (getTableVersion "Measurements" w_versioned)) = db w_versioned.
Proof.
  destruct (@reads_leave_database driver ToyFacts.laws "Measurements" w_versioned)
    as (T1 & T2 & _).
  split; [exact T1|]. split; [reflexivity|exact T2].
Defined.

End Examples.

(* ===================================================================== *)
(** ** Table names that are not identifiers, on the second driver *)
(* ===================================================================== *)

Module LooseExamples.

Import Loose.

(** C6 (the code departs from the claim): with the tables [a] and [a--b]
    listed, [dropTable "a--b"] finds the table and submits
    [DROP TABLE a--b;], which reads as the removal of [a] followed by a
    comment; the statement succeeds and [dropTable] returns true, yet
    [a--b] is still listed and [a] is gone.  [createTable] back-quotes the
    name it is given, [dropTable] does not. *)
Lemma dropTable_removes_another_table :
  createTable_sql "a--b" id_only
  = "CREATE TABLE `a--b` (id INTEGER PRIMARY KEY) WITHOUT ROWID;"
  /\ QSqlDatabase_tables (db w_ab) = ["a"; "a--b"]
  /\ fst (isTablePresent "a--b" w_ab) = true
  /\ fst (dropTable "a--b" w_ab) = true
  /\ new_calls w_ab (snd (dropTable "a--b" w_ab))
     = [CallTables; CallPrepare "DROP TABLE a--b;";
        CallExec "DROP TABLE a--b;" []]
  /\ QSqlDatabase_tables (db (snd (dropTable "a--b" w_ab))) = ["a--b"]
  /\ fst (isTablePresent "a--b" (snd (dropTable "a--b" w_ab))) = true
  /\ ~ dropTable_removes "a--b" w_ab.
Proof.
  repeat split. intros H.
  specialize (H eq_refl eq_refl). discriminate H.
Qed.

(** C9 (the claim as stated fails): one [createTable], from the empty
    database, with a name that closes its own quote.  The statement creates
    the registry with a row for [ghost], a table that no world of the run
    lists; when a table of that name is created later, [getTableVersion]
    answers the version of the row.  And a [dropTable] does delete rows of
    the registry: all of them, when its statement removes the registry,
    be it under its own name or under a name that goes on as a comment. *)
Lemma injected_row_never_existed :
  createTable_sql ghost_name id_only
  = "CREATE TABLE `TablesVersions` AS SELECT 'ghost' AS tableName, 1 AS version --` (id INTEGER PRIMARY KEY) WITHOUT ROWID;"
  /\ any_history fresh [w_ghost; fresh]
  /\ (forall m, registered fresh m -> In m (QSqlDatabase_tables (db fresh)))
  /\ fst (createTable ghost_name id_only fresh) = true
  /\ QSqlDatabase_tables (db w_ghost) = [VERSION_TABLE_NAME]
  /\ registered w_ghost "ghost"
  /\ ~ once_existed [w_ghost; fresh] "ghost"
  /\ fst (getTableVersion "ghost" (snd (createTable "ghost" id_only w_ghost)))
     = 1
  /\ QSqlDatabase_tables (db w_shadow)
     = [VERSION_TABLE_NAME; "Measurements"; "TablesVersions--x"]
  /\ registered w_shadow "Measurements"
  /\ fst (dropTable "TablesVersions--x" w_shadow) = true
  /\ ~ registered (snd (dropTable "TablesVersions--x" w_shadow)) "Measurements"
  /\ fst (dropTable VERSION_TABLE_NAME w_shadow) = true
  /\ ~ registered (snd (dropTable VERSION_TABLE_NAME w_shadow)) "Measurements".
Proof.
  split; [reflexivity|]. split.
  { apply (any_history_step fresh (OpCreateTable ghost_name id_only)).
    apply any_history_start. }
  split; [intros m Hm; exfalso; apply Hm; reflexivity|].
  split; [reflexivity|]. split; [reflexivity|].
  split; [discriminate|]. split.
  { intros [w [[<-|[<-|[]]] Hin]]; simpl in Hin; intuition discriminate. }
  split; [reflexivity|]. split; [reflexivity|]. split; [discriminate|].
  split; [reflexivity|]. split; [intros H; apply H; reflexivity|].
  split; [reflexivity|]. intros H; apply H; reflexivity.
Qed.

End LooseExamples.

(* ===================================================================== *)
(** ** How the operations of the registry compose *)
(* ===================================================================== *)

Section Compositions.

Context {D : QtSql} {L : SqliteLaws D}.

(** The answer of [getTableVersion], read off the catalog and the row. *)
Lemma getTableVersion_value (n : string) (w : World) :
  fst (getTableVersion n w)
  = if negb (fst (isTablePresent VERSION_TABLE_NAME w)) then -1
    else if negb (fst (isTablePresent n w)) then 0
    else match registry_row (db w) n with
         | Some v => match recorded_version v with
                     | Some k => k
                     | None => -1
                     end
         | None => -1
         end.
Proof.
  destruct (fst (isTablePresent VERSION_TABLE_NAME w)) eqn:Hreg; cbn [negb];
    [|now rewrite getTableVersion_no_registry].
  destruct (fst (isTablePresent n w)) eqn:Hn; cbn [negb];
    [|now rewrite getTableVersion_no_table].
  rewrite getTableVersion_lookup by assumption. cbv zeta.
  destruct (registry_row (db w) n) as [v|] eqn:Hrow.
  - destruct (select_hit _ _ _ Hrow) as [Hp [r [rest [He Hr]]]].
    rewrite Hp, He, Hr. unfold recorded_version.
    destruct (QVariant_isValid v); [|reflexivity].
    destruct (snd (QVariant_toUInt v)); reflexivity.
  - destruct (QSqlQuery_prepare_ok (db w) SELECT_VERSION_SQL); [|reflexivity].
    destruct (QSqlQuery_exec_result (db w) SELECT_VERSION_SQL (select_bindings n))
      as [[d' rs]|] eqn:He; [|reflexivity].
    rewrite (select_miss _ _ _ _ Hrow He). reflexivity.
Qed.

Lemma isTablePresent_same_catalog (n : string) (w w' : World) :
  (In n (QSqlDatabase_tables (db w')) <-> In n (QSqlDatabase_tables (db w))) ->
  fst (isTablePresent n w') = fst (isTablePresent n w).
Proof.
  intros H. apply eq_iff_eq_true. rewrite !isTablePresent_In. exact H.
Qed.

(** Two worlds that list the registry and the table alike and store the
    same row for it give the same answer. *)
Lemma getTableVersion_same (n : string) (w w' : World) :
  (In VERSION_TABLE_NAME (QSqlDatabase_tables (db w'))
   <-> In VERSION_TABLE_NAME (QSqlDatabase_tables (db w))) ->
  (In n (QSqlDatabase_tables (db w')) <-> In n (QSqlDatabase_tables (db w))) ->
  registry_row (db w') n = registry_row (db w) n ->
  fst (getTableVersion n w') = fst (getTableVersion n w).
Proof.
  intros Hreg Hn Hrow. rewrite !getTableVersion_value.
  rewrite (isTablePresent_same_catalog _ _ _ Hreg).
  rewrite (isTablePresent_same_catalog _ _ _ Hn), Hrow. reflexivity.
Qed.

(** What a successful [setTableVersion] did. *)
Lemma setTableVersion_true (n : string) (v : Z) (w : World) :
  fst (setTableVersion n v w) = true ->
  In VERSION_TABLE_NAME (QSqlDatabase_tables (db w))
  /\ In n (QSqlDatabase_tables (db w))
  /\ QSqlDatabase_tables (db (snd (setTableVersion n v w)))
     = QSqlDatabase_tables (db w)
  /\ registry_row (db (snd (setTableVersion n v w))) n = Some (QV_LongLong v)
  /\ forall m, m <> n ->
       registry_row (db (snd (setTableVersion n v w))) m = registry_row (db w) m.
Proof.
  intros Hset.
  destruct (fst (isTablePresent VERSION_TABLE_NAME w)) eqn:Hreg;
    [|rewrite setTableVersion_no_registry in Hset by assumption; discriminate].
  destruct (fst (isTablePresent n w)) eqn:Hn;
    [|rewrite setTableVersion_no_table in Hset by assumption; discriminate].
  rewrite setTableVersion_update in * by assumption. cbv zeta in *.
  destruct (QSqlQuery_prepare_ok (db w) INSERT_VERSION_SQL); [|discriminate].
  destruct (QSqlQuery_exec_result (db w) INSERT_VERSION_SQL (insert_bindings n v))
    as [[d' rs]|] eqn:He; [|discriminate].
  destruct (insert_effect _ _ _ _ _ He) as [Ht [Hrow Hother]].
  cbn [snd db]. apply isTablePresent_In in Hreg, Hn. auto.
Qed.

(** A failed [setTableVersion] leaves the database as it was. *)
Lemma setTableVersion_false (n : string) (v : Z) (w : World) :
  fst (setTableVersion n v w) = false ->
  db (snd (setTableVersion n v w)) = db w.
Proof.
  destruct (fst (isTablePresent VERSION_TABLE_NAME w)) eqn:Hreg;
    [|now rewrite setTableVersion_no_registry].
  destruct (fst (isTablePresent n w)) eqn:Hn;
    [|now rewrite setTableVersion_no_table].
  rewrite setTableVersion_update by assumption. cbv zeta.
  destruct (QSqlQuery_prepare_ok (db w) INSERT_VERSION_SQL); [|reflexivity].
  destruct (QSqlQuery_exec_result (db w) INSERT_VERSION_SQL (insert_bindings n v))
    as [[d' rs]|] eqn:He; [discriminate|reflexivity].
Qed.

(** What a successful [dropTable] of a listed table did. *)
Lemma dropTable_true (n : string) (w : World) :
  Ident.valid_identifier n = true ->
  fst (isTablePresent n w) = true ->
  fst (dropTable n w) = true ->
  (forall m, In m (QSqlDatabase_tables (db (snd (dropTable n w))))
             <-> m <> n /\ In m (QSqlDatabase_tables (db w)))
  /\ forall m, registry_row (db (snd (dropTable n w))) m
               = if String.eqb n VERSION_TABLE_NAME then None
                 else registry_row (db w) m.
Proof.
  intros Hn Hin. rewrite dropTable_run, Hin. cbv zeta.
  destruct (fst (executeQuery (dropTable_sql n) (record_call CallTables w)))
    eqn:Hok; cbn [fst snd]; [intros _|discriminate].
  destruct (executeQuery_true _ _ Hok) as [_ [rs He]].
  cbn [db record_call] in He.
  exact (drop_effect _ _ _ _ Hn (proj1 (isTablePresent_In n w) Hin) He).
Qed.

(** X1: a successful [setTableVersion] for one table changes the answer of
    [getTableVersion] for no other table, and a failed one changes no
    answer at all. *)
Theorem setTableVersion_frame (n m : string) (v : Z) (w : World) :
  (fst (setTableVersion n v w) = true -> m <> n ->
   fst (getTableVersion m (snd (setTableVersion n v w)))
   = fst (getTableVersion m w))
  /\ (fst (setTableVersion n v w) = false ->
      fst (getTableVersion m (snd (setTableVersion n v w)))
      = fst (getTableVersion m w)).
Proof.
  split.
  - intros Hset Hmn.
    destruct (setTableVersion_true n v w Hset) as (_ & _ & Ht & _ & Hother).
    apply getTableVersion_same; rewrite ?Ht; try reflexivity.
    apply Hother, Hmn.
  - intros Hset. apply getTableVersion_same;
      rewrite (setTableVersion_false n v w Hset); reflexivity.
Qed.

(** X2: the row of a dropped table outlives it and comes back with the
    table.  For a table name that is an identifier other than the
    registry, a well-formed column definition and a version that is a C
    [int]: after a successful [setTableVersion] and a successful
    [dropTable], [getTableVersion] answers 0, and once [createTable]
    succeeds for that name again it answers the old version. *)
Theorem stale_version_revives
    (n : string) (cols : ColumnList) (v : Z) (w : World) :
  Ident.valid_identifier n = true ->
  n <> VERSION_TABLE_NAME ->
  well_formed_columns cols ->
  int_range v ->
  fst (setTableVersion n v w) = true ->
  fst (dropTable n (snd (setTableVersion n v w))) = true ->
  fst (getTableVersion n (snd (dropTable n (snd (setTableVersion n v w))))) = 0
  /\ (fst (createTable n cols
             (snd (dropTable n (snd (setTableVersion n v w))))) = true ->
      fst (getTableVersion n
             (snd (createTable n cols
                     (snd (dropTable n (snd (setTableVersion n v w)))))))
      = v).
Proof.
  intros Hn Hreg Hcols Hv Hset.
  destruct (setTableVersion_true n v w Hset) as (Hr1 & Hn1 & Ht1 & Hrow1 & _).
  set (w1 := snd (setTableVersion n v w)) in *. intros Hdrop.
  assert (Hin1 : fst (isTablePresent n w1) = true)
    by (apply isTablePresent_In; rewrite Ht1; exact Hn1).
  destruct (dropTable_true n w1 Hn Hin1 Hdrop) as [Hcat2 Hrows2].
  set (w2 := snd (dropTable n w1)) in *.
  assert (Hne : String.eqb n VERSION_TABLE_NAME = false)
    by (now apply String.eqb_neq).
  rewrite Hne in Hrows2.
  assert (Hreg2 : In VERSION_TABLE_NAME (QSqlDatabase_tables (db w2))).
  { apply Hcat2. split; [congruence|]. rewrite Ht1. exact Hr1. }
  assert (Hgone : ~ In n (QSqlDatabase_tables (db w2))).
  { intros H. apply Hcat2 in H. now destruct H. }
  split.
  - rewrite getTableVersion_value.
    replace (fst (isTablePresent VERSION_TABLE_NAME w2)) with true
      by (symmetry; now apply isTablePresent_In).
    replace (fst (isTablePresent n w2)) with false; [reflexivity|].
    symmetry. apply not_true_is_false. now rewrite isTablePresent_In.
  - intros Hcreate.
    destruct (createTable_effect n cols w2 Hn Hcols Hcreate) as [Hcat3 Hrows3].
    set (w3 := snd (createTable n cols w2)) in *.
    rewrite getTableVersion_value.
    replace (fst (isTablePresent VERSION_TABLE_NAME w3)) with true
      by (symmetry; apply isTablePresent_In, Hcat3; now right).
    replace (fst (isTablePresent n w3)) with true
      by (symmetry; apply isTablePresent_In, Hcat3; now left).
    cbn [negb]. rewrite Hrows3, Hrows2, Hrow1.
    unfold recorded_version. cbn [QVariant_isValid QVariant_toUInt fst snd andb].
    apply int_round_trip, Hv.
Qed.

(** X3: nothing protects the registry: [dropTable] accepts its name, and
    after it succeeded every [getTableVersion] answers -1 and every
    [setTableVersion] fails, for every table. *)
Theorem dropping_registry_forgets (w : World) (n : string) (v : Z) :
  fst (dropTable VERSION_TABLE_NAME w) = true ->
  fst (getTableVersion n (snd (dropTable VERSION_TABLE_NAME w))) = -1
  /\ fst (setTableVersion n v (snd (dropTable VERSION_TABLE_NAME w))) = false.
Proof.
  intros Hdrop.
  assert (Hgone : fst (isTablePresent VERSION_TABLE_NAME
                         (snd (dropTable VERSION_TABLE_NAME w))) = false).
  { destruct (fst (isTablePresent VERSION_TABLE_NAME w)) eqn:Hin.
    - destruct (dropTable_true VERSION_TABLE_NAME w eq_refl Hin Hdrop)
        as [Hcat _].
      apply not_true_is_false. rewrite isTablePresent_In. intros H.
      apply Hcat in H. now destruct H.
    - rewrite dropTable_run, Hin. exact Hin. }
  split.
  - now rewrite getTableVersion_no_registry.
  - now rewrite setTableVersion_no_registry.
Qed.

(** X4: the version comes back through an [unsigned int] assigned to an
    [int]: with both tables listed and the integer [l] stored for the name,
    [getTableVersion] answers [l] itself when [l] is a C [int], negative
    values included, and [l - 2^32] when [l] lies between [2^31] and
    [2^32 - 1]. *)
Theorem getTableVersion_wraps (n : string) (l : Z) (w : World) :
  fst (isTablePresent VERSION_TABLE_NAME w) = true ->
  fst (isTablePresent n w) = true ->
  registry_row (db w) n = Some (QV_LongLong l) ->
  (int_range l -> fst (getTableVersion n w) = l)
  /\ (2 ^ 31 <= l < 2 ^ 32 -> fst (getTableVersion n w) = l - 2 ^ 32).
Proof.
  intros Hreg Hn Hrow. rewrite getTableVersion_value, Hreg, Hn, Hrow.
  unfold recorded_version.
  cbn [negb QVariant_isValid QVariant_toUInt fst snd andb]. split.
  - apply int_round_trip.
  - intros Hl. unfold int_of_uint, uint_of_Z. rewrite Z.mod_small by lia.
    destruct (Z.ltb_spec l (2 ^ 31)); [lia|reflexivity].
Qed.

(** X5: creating the registry again clears nothing: when
    [ensureVersionTable] succeeds, every [getTableVersion] answers as it
    did if the registry was listed before; and, provided no listed table
    bears the registry's name in another letter case, the registry is
    listed afterward and a table the catalog did not list reads as
    version 0. *)
Theorem ensureVersionTable_keeps_versions (n : string) (w : World) :
  fst (ensureVersionTable w) = true ->
  ((forall t, In t (QSqlDatabase_tables (db w)) ->
              Ident.upper t = Ident.upper VERSION_TABLE_NAME ->
              t = VERSION_TABLE_NAME) ->
   fst (isTablePresent VERSION_TABLE_NAME (snd (ensureVersionTable w))) = true
   /\ (fst (isTablePresent n w) = false -> n <> VERSION_TABLE_NAME ->
       fst (getTableVersion n (snd (ensureVersionTable w))) = 0))
  /\ (fst (isTablePresent VERSION_TABLE_NAME w) = true ->
      fst (getTableVersion n (snd (ensureVersionTable w)))
      = fst (getTableVersion n w)).
Proof.
  unfold ensureVersionTable. intros Hok.
  destruct (executeQuery_true _ _ Hok) as [_ [rs He]].
  destruct (ensure_effect _ _ _ He) as [Hcat Hrows].
  set (w' := snd (executeQuery ENSURE_VERSION_TABLE_SQL w)) in *.
  split.
  - intros Hcase.
    assert (Hreg' : In VERSION_TABLE_NAME (QSqlDatabase_tables (db w'))).
    { destruct Hcat as [Hadd | [[t [Ht Hup]] Hsame]].
      - apply Hadd. now left.
      - apply Hsame. rewrite <- (Hcase t Ht Hup). exact Ht. }
    apply isTablePresent_In in Hreg'.
    split; [exact Hreg'|].
    intros Hn Hne. rewrite getTableVersion_value, Hreg'. cbn [negb].
    replace (fst (isTablePresent n w')) with false; [reflexivity|].
    symmetry. apply not_true_is_false. rewrite isTablePresent_In. intros H.
    assert (Hin : In n (QSqlDatabase_tables (db w))).
    { destruct Hcat as [Hadd | [_ Hsame]].
      - apply Hadd in H. destruct H as [H|H]; [contradiction|exact H].
      - now apply Hsame. }
    apply isTablePresent_In in Hin. congruence.
  - intros Hreg. apply isTablePresent_In in Hreg.
    apply getTableVersion_same; [| |apply Hrows].
    + destruct Hcat as [Hadd | [_ Hsame]]; [|apply Hsame].
      rewrite Hadd. tauto.
    + destruct Hcat as [Hadd | [_ Hsame]]; [|apply Hsame].
      rewrite Hadd. split; [intros [->|H]; assumption|tauto].
Qed.

(** X10: a table that has just been created has no version.  For a
    table name that is an identifier and a well-formed column definition,
    with the registry listed and no row stored for the name, a successful
    [createTable] is followed by a [getTableVersion] that answers -1, not
    0. *)
Theorem created_table_is_unversioned
    (n : string) (cols : ColumnList) (w : World) :
  Ident.valid_identifier n = true ->
  well_formed_columns cols ->
  fst (isTablePresent VERSION_TABLE_NAME w) = true ->
  registry_row (db w) n = None ->
  fst (createTable n cols w) = true ->
  fst (getTableVersion n (snd (createTable n cols w))) = -1.
Proof.
  intros Hn Hcols Hreg Hrow Hok.
  destruct (createTable_effect n cols w Hn Hcols Hok) as [Hcat Hrows].
  rewrite getTableVersion_value.
  replace (fst (isTablePresent VERSION_TABLE_NAME (snd (createTable n cols w))))
    with true
    by (symmetry; apply isTablePresent_In, Hcat; right;
        now apply isTablePresent_In).
  replace (fst (isTablePresent n (snd (createTable n cols w)))) with true
    by (symmetry; apply isTablePresent_In, Hcat; now left).
  cbn [negb]. now rewrite Hrows, Hrow.
Qed.

(** X7: the two meanings of -1 differ in the log only.
    [getTableVersion] is silent when the registry or the table is not
    listed.  With both listed, it answers the version the registry
    records for the table and logs nothing; and when the registry records
    none (no row, or a row whose value is invalid or does not convert) it
    answers -1 after exactly one warning, which names the table. *)
Theorem getTableVersion_warns_iff_version_lost (n : string) (w : World) :
  (fst (isTablePresent VERSION_TABLE_NAME w) = false
   \/ fst (isTablePresent n w) = false ->
   log (snd (getTableVersion n w)) = log w)
  /\ (fst (isTablePresent VERSION_TABLE_NAME w) = true ->
      fst (isTablePresent n w) = true ->
      (forall k, version_of_row (db w) n = Some k ->
                 fst (getTableVersion n w) = k
                 /\ log (snd (getTableVersion n w)) = log w)
      /\ (version_of_row (db w) n = None ->
          fst (getTableVersion n w) = -1
          /\ log (snd (getTableVersion n w))
             = (log w
                  ++ [(LogWarning, ["Cannot find version for table"; n])])%list)).
Proof.
  split.
  - intros [Hreg|Hn].
    + now rewrite getTableVersion_no_registry.
    + destruct (fst (isTablePresent VERSION_TABLE_NAME w)) eqn:Hreg.
      * now rewrite getTableVersion_no_table.
      * now rewrite getTableVersion_no_registry.
  - intros Hreg Hn. rewrite getTableVersion_lookup by assumption. cbv zeta.
    unfold version_of_row.
    destruct (registry_row (db w) n) as [v|] eqn:Hrow.
    + destruct (select_hit _ _ _ Hrow) as [Hp [r [rest [He Hr]]]].
      rewrite Hp, He, Hr. unfold recorded_version.
      destruct (QVariant_isValid v); cbn [andb];
        [|split; [discriminate|intros _; split; reflexivity]].
      destruct (snd (QVariant_toUInt v)).
      * split; [|discriminate].
        intros k Hk. injection Hk as <-. split; reflexivity.
      * split; [discriminate|intros _; split; reflexivity].
    + split; [discriminate|intros _].
      destruct (QSqlQuery_prepare_ok (db w) SELECT_VERSION_SQL);
        [|split; reflexivity].
      destruct (QSqlQuery_exec_result (db w) SELECT_VERSION_SQL (select_bindings n))
        as [[d' rs]|] eqn:He; [|split; reflexivity].
      rewrite (select_miss _ _ _ _ Hrow He). split; reflexivity.
Qed.

End Compositions.

(* ===================================================================== *)
(** ** What the operations report and what they hand to the driver *)
(* ===================================================================== *)

Section Reporting.

Context {D : QtSql}.

Lemma skipn_own_length {A : Type} (l x : list A) :
  skipn (length l) (l ++ x) = x.
Proof. induction l; simpl; auto. Qed.

Lemma app_one_more {A : Type} (l : list A) (a : A) : (l ++ [a])%list <> l.
Proof.
  intros H. apply (f_equal (@length A)) in H.
  rewrite length_app in H. simpl in H. lia.
Qed.

(** X6: [isTablePresent] is an exact match on the catalog: it answers true
    exactly when the catalog lists this very string, and it does so with
    one look at the catalog, no statement and no log line. *)
Theorem isTablePresent_exact_match (n : string) (w : World) :
  (fst (isTablePresent n w) = true <-> In n (QSqlDatabase_tables (db w)))
  /\ new_calls w (snd (isTablePresent n w)) = [CallTables]
  /\ log (snd (isTablePresent n w)) = log w.
Proof.
  split; [apply isTablePresent_In|]. split; [|reflexivity].
  rewrite isTablePresent_run. unfold new_calls. cbn [snd record_call calls].
  apply skipn_own_length.
Qed.

(** X8: [setTableVersion] fails silently when the registry or the table is
    not listed and with exactly one warning when its statement fails; a
    success logs nothing. *)
Theorem setTableVersion_warns_after_statement_only
    (n : string) (v : Z) (w : World) :
  (fst (setTableVersion n v w) = true ->
   log (snd (setTableVersion n v w)) = log w)
  /\ (fst (setTableVersion n v w) = false ->
      (log (snd (setTableVersion n v w)) = log w
       <-> fst (isTablePresent VERSION_TABLE_NAME w) = false
           \/ fst (isTablePresent n w) = false)
      /\ (fst (isTablePresent VERSION_TABLE_NAME w) = true ->
          fst (isTablePresent n w) = true ->
          log (snd (setTableVersion n v w))
          = (log w ++ [(LogWarning, ["Cannot save version for table"; n])])%list)).
Proof.
  destruct (fst (isTablePresent VERSION_TABLE_NAME w)) eqn:Hreg.
  2:{ rewrite setTableVersion_no_registry by assumption.
      split; [discriminate|]. intros _. split; [tauto|discriminate]. }
  destruct (fst (isTablePresent n w)) eqn:Hn.
  2:{ rewrite setTableVersion_no_table by assumption.
      split; [discriminate|]. intros _. split; [tauto|discriminate]. }
  rewrite setTableVersion_update by assumption. cbv zeta.
  destruct (QSqlQuery_prepare_ok (db w) INSERT_VERSION_SQL).
  - destruct (QSqlQuery_exec_result (db w) INSERT_VERSION_SQL (insert_bindings n v))
      as [[d' rs]|]; cbn [fst snd log warned record_call].
    + split; [reflexivity|discriminate].
    + split; [discriminate|]. intros _. split; [|reflexivity].
      split; [intros H; now apply app_one_more in H|intros [H|H]; discriminate].
  - cbn [fst snd log warned record_call].
    split; [discriminate|]. intros _. split; [|reflexivity].
    split; [intros H; now apply app_one_more in H|intros [H|H]; discriminate].
Qed.

(** X9: a [dropTable] that returns false found the table listed, logged
    exactly one warning naming it, and left the database as it was, the
    table still listed. *)
Theorem dropTable_failure (n : string) (w : World) :
  fst (dropTable n w) = false ->
  fst (isTablePresent n w) = true
  /\ db (snd (dropTable n w)) = db w
  /\ fst (isTablePresent n (snd (dropTable n w))) = true
  /\ log (snd (dropTable n w))
     = (log w ++ [(LogWarning, ["Cannot drop table"; n])])%list.
Proof.
  rewrite dropTable_run.
  destruct (fst (isTablePresent n w)) eqn:Hin; [|discriminate]. cbv zeta.
  destruct (fst (executeQuery (dropTable_sql n) (record_call CallTables w)))
    eqn:Hok; [discriminate|]. intros _. cbn [snd db log].
  assert (Hdb : db (snd (executeQuery (dropTable_sql n) (record_call CallTables w)))
                = db w) by (now rewrite (executeQuery_false _ _ Hok)).
  split; [reflexivity|]. split; [exact Hdb|]. split.
  - rewrite <- Hin. apply isTablePresent_same_db. exact Hdb.
  - now rewrite executeQuery_log.
Qed.

(** The driver calls of [getTableVersion]. *)
Lemma getTableVersion_calls (n : string) (w : World) :
  let select := CallPrepare SELECT_VERSION_SQL in
  let run := CallExec SELECT_VERSION_SQL (select_bindings n) in
  new_calls w (snd (getTableVersion n w)) = [CallTables]
  \/ new_calls w (snd (getTableVersion n w)) = [CallTables; CallTables]
  \/ new_calls w (snd (getTableVersion n w)) = [CallTables; CallTables; select]
  \/ new_calls w (snd (getTableVersion n w))
     = [CallTables; CallTables; select; run].
Proof.
  cbv zeta. unfold new_calls.
  destruct (fst (isTablePresent VERSION_TABLE_NAME w)) eqn:Hreg.
  2:{ rewrite getTableVersion_no_registry by assumption. left.
      cbn [snd record_call calls]. apply skipn_own_length. }
  destruct (fst (isTablePresent n w)) eqn:Hn.
  2:{ rewrite getTableVersion_no_table by assumption. right. left.
      cbn [snd record_call calls]. rewrite <- app_assoc.
      apply skipn_own_length. }
  right. right.
  rewrite getTableVersion_lookup by assumption. cbv zeta.
  destruct (QSqlQuery_prepare_ok (db w) SELECT_VERSION_SQL).
  - right.
    destruct (QSqlQuery_exec_result (db w) SELECT_VERSION_SQL (select_bindings n))
      as [[d' [|r rest]]|];
      [| destruct (QVariant_isValid (r "version"));
         [destruct (snd (QVariant_toUInt (r "version")))|] |];
      cbn [snd record_call calls warned]; rewrite <- !app_assoc;
      apply skipn_own_length.
  - left. cbn [snd record_call calls warned]. rewrite <- !app_assoc.
    apply skipn_own_length.
Qed.

(** The driver calls of [setTableVersion]. *)
Lemma setTableVersion_calls (n : string) (v : Z) (w : World) :
  let insert := CallPrepare INSERT_VERSION_SQL in
  let run := CallExec INSERT_VERSION_SQL (insert_bindings n v) in
  new_calls w (snd (setTableVersion n v w)) = [CallTables]
  \/ new_calls w (snd (setTableVersion n v w)) = [CallTables; CallTables]
  \/ new_calls w (snd (setTableVersion n v w)) = [CallTables; CallTables; insert]
  \/ new_calls w (snd (setTableVersion n v w))
     = [CallTables; CallTables; insert; run].
Proof.
  cbv zeta. unfold new_calls.
  destruct (fst (isTablePresent VERSION_TABLE_NAME w)) eqn:Hreg.
  2:{ rewrite setTableVersion_no_registry by assumption. left.
      cbn [snd record_call calls]. apply skipn_own_length. }
  destruct (fst (isTablePresent n w)) eqn:Hn.
  2:{ rewrite setTableVersion_no_table by assumption. right. left.
      cbn [snd record_call calls]. rewrite <- app_assoc.
      apply skipn_own_length. }
  right. right.
  rewrite setTableVersion_update by assumption. cbv zeta.
  destruct (QSqlQuery_prepare_ok (db w) INSERT_VERSION_SQL).
  - right.
    destruct (QSqlQuery_exec_result (db w) INSERT_VERSION_SQL (insert_bindings n v))
      as [[d' rs]|];
      cbn [snd record_call calls warned]; rewrite <- !app_assoc;
      apply skipn_own_length.
  - left. cbn [snd record_call calls warned]. rewrite <- !app_assoc.
    apply skipn_own_length.
Qed.

(** X11: the registry is read and written through two fixed statements:
    whatever the table name and the version, every statement
    [getTableVersion] and [setTableVersion] prepare is the constant
    [SELECT] or [INSERT OR REPLACE] text, and the name and the version
    travel as bound values only. *)
Theorem registry_statements_fixed (n : string) (v : Z) (w : World) :
  (forall sql, In (CallPrepare sql) (new_calls w (snd (getTableVersion n w))) ->
               sql = SELECT_VERSION_SQL)
  /\ (forall sql b, In (CallExec sql b) (new_calls w (snd (getTableVersion n w))) ->
                    sql = SELECT_VERSION_SQL /\ b = select_bindings n)
  /\ (forall sql, In (CallPrepare sql) (new_calls w (snd (setTableVersion n v w))) ->
                  sql = INSERT_VERSION_SQL)
  /\ (forall sql b, In (CallExec sql b) (new_calls w (snd (setTableVersion n v w))) ->
                    sql = INSERT_VERSION_SQL /\ b = insert_bindings n v).
Proof.
  pose proof (getTableVersion_calls n w) as Hg.
  pose proof (setTableVersion_calls n v w) as Hs. cbv zeta in Hg, Hs.
  split; [|split; [|split]].
  - intros sql. destruct Hg as [Hg|[Hg|[Hg|Hg]]]; rewrite Hg; simpl;
      intuition congruence.
  - intros sql b. destruct Hg as [Hg|[Hg|[Hg|Hg]]]; rewrite Hg; simpl;
      intuition congruence.
  - intros sql. destruct Hs as [Hs|[Hs|[Hs|Hs]]]; rewrite Hs; simpl;
      intuition congruence.
  - intros sql b. destruct Hs as [Hs|[Hs|[Hs|Hs]]]; rewrite Hs; simpl;
      intuition congruence.
Qed.

End Reporting.

(* ===================================================================== *)
(** ** Place markers in table names *)
(* ===================================================================== *)

Section MarkerFacts.

Lemma render_app (m : nat) (a : string) (ps qs : list QStr.Piece) :
  QStr.render m a (ps ++ qs) = QStr.render m a ps ++ QStr.render m a qs.
Proof.
  induction ps as [|[c|k text] ps IH]; simpl; [reflexivity| |].
  - now rewrite IH.
  - now rewrite IH, append_assoc.
Qed.

Lemma min_escape_app_some (ps qs : list QStr.Piece) :
  QStr.min_escape qs <> None -> QStr.min_escape (ps ++ qs) <> None.
Proof.
  intros Hq. induction ps as [|[c|k text] ps IH]; simpl; [exact Hq|exact IH|].
  destruct (QStr.min_escape (ps ++ qs)); discriminate.
Qed.

(** One step of the scan. *)
Lemma scan_cons (c : ascii) (r0 : string) :
  QStr.scan (String c r0)
  = if Ascii.eqb c "%" then
      match r0 with
      | EmptyString => [QStr.Lit c]
      | String c1 r1 =>
          if Ascii.eqb c1 "L" then
            match r1 with
            | EmptyString => [QStr.Lit c; QStr.Lit c1]
            | String c2 r2 =>
                match QStr.digitValue c2 with
                | None => QStr.Lit c :: QStr.Lit c1 :: QStr.scan r1
                | Some d =>
                    match r2 with
                    | EmptyString => [QStr.Esc d (QStr.str3 c c1 c2)]
                    | String c3 r3 =>
                        match QStr.digitValue c3 with
                        | Some d' =>
                            QStr.Esc (10 * d + d') (QStr.str4 c c1 c2 c3)
                              :: QStr.scan r3
                        | None =>
                            QStr.Esc d (QStr.str3 c c1 c2) :: QStr.scan r2
                        end
                    end
                end
            end
          else
            match QStr.digitValue c1 with
            | None => QStr.Lit c :: QStr.scan r0
            | Some d =>
                match r1 with
                | EmptyString => [QStr.Esc d (QStr.str2 c c1)]
                | String c2 r2 =>
                    match QStr.digitValue c2 with
                    | Some d' =>
                        QStr.Esc (10 * d + d') (QStr.str3 c c1 c2)
                          :: QStr.scan r2
                    | None => QStr.Esc d (QStr.str2 c c1) :: QStr.scan r1
                    end
                end
            end
      end
    else QStr.Lit c :: QStr.scan r0.
Proof. reflexivity. Qed.

(** The scan starts afresh at a character that can neither continue nor
    begin the tail of a place marker. *)
Lemma scan_app_boundary (c0 : ascii) (t : string) :
  QStr.digitValue c0 = None ->
  Ascii.eqb c0 "L" = false ->
  forall k s, (String.length s <= k)%nat ->
    QStr.scan (s ++ String c0 t)
    = (QStr.scan s ++ QStr.scan (String c0 t))%list.
Proof.
  intros Hd HL. induction k as [|k IH]; intros s Hk.
  - destruct s; [reflexivity|simpl in Hk; lia].
  - destruct s as [|c r0]; [reflexivity|].
    cbn [String.length] in Hk. cbn [append].
    rewrite (scan_cons c (r0 ++ String c0 t)), (scan_cons c r0).
    destruct (Ascii.eqb c "%"); [|rewrite (IH r0) by lia; reflexivity].
    destruct r0 as [|c1 r1]; cbn [append String.length] in *.
    { rewrite HL, Hd. reflexivity. }
    destruct (Ascii.eqb c1 "L").
    + destruct r1 as [|c2 r2]; cbn [append String.length] in *.
      { rewrite Hd. reflexivity. }
      destruct (QStr.digitValue c2) as [d|].
      * destruct r2 as [|c3 r3]; cbn [append String.length] in *.
        { rewrite Hd. reflexivity. }
        destruct (QStr.digitValue c3) as [d'|].
        -- rewrite (IH r3) by lia. reflexivity.
        -- pose proof (IH (String c3 r3) ltac:(cbn [String.length]; lia)) as Hrec;
             cbn [append] in Hrec; rewrite Hrec.
           reflexivity.
      * pose proof (IH (String c2 r2) ltac:(cbn [String.length]; lia)) as Hrec;
             cbn [append] in Hrec; rewrite Hrec.
        reflexivity.
    + destruct (QStr.digitValue c1) as [d|].
      * destruct r1 as [|c2 r2]; cbn [append String.length] in *.
        { rewrite Hd. reflexivity. }
        destruct (QStr.digitValue c2) as [d'|].
        -- rewrite (IH r2) by lia. reflexivity.
        -- pose proof (IH (String c2 r2) ltac:(cbn [String.length]; lia)) as Hrec;
             cbn [append] in Hrec; rewrite Hrec.
           reflexivity.
      * pose proof (IH (String c1 r1) ltac:(cbn [String.length]; lia)) as Hrec;
             cbn [append] in Hrec; rewrite Hrec.
        reflexivity.
Qed.

(** X12: every statement [createTable] formats ends with
    [WITHOUT ROWID;], for every table name and column list, place markers
    in the name included: the convention cannot be switched off through
    the arguments. *)
Theorem createTable_sql_always_without_rowid (n : string) (cols : ColumnList) :
  uses_without_rowid (createTable_sql n cols) = true.
Proof.
  unfold uses_without_rowid, createTable_sql. rewrite arg_table_name.
  set (body := QStr.join ", " (createTable_items cols)).
  unfold QStr.arg.
  change ("CREATE TABLE `" ++ n ++ "` (%2) WITHOUT ROWID;")
    with ("CREATE TABLE `" ++ (n ++ "` (%2) WITHOUT ROWID;")).
  assert (Hscan : QStr.scan ("CREATE TABLE `" ++ (n ++ "` (%2) WITHOUT ROWID;"))
                  = (map QStr.Lit (list_ascii_of_string "CREATE TABLE `")
                       ++ QStr.scan n
                       ++ QStr.scan "` (%2) WITHOUT ROWID;")%list).
  { rewrite (scan_marker_free "CREATE TABLE `") by reflexivity.
    f_equal.
    apply (scan_app_boundary "`" " (%2) WITHOUT ROWID;" eq_refl eq_refl
             (String.length n) n (le_n _)). }
  rewrite Hscan.
  destruct (QStr.min_escape _) as [m|] eqn:Hmin.
  - rewrite !render_app. apply ends_with_app, ends_with_app.
    change (QStr.render m body (QStr.scan "` (%2) WITHOUT ROWID;"))
      with ("` (" ++ ((if Nat.eqb 2 m then body else "%2")
                        ++ ") WITHOUT ROWID;")).
    apply ends_with_app, ends_with_app. reflexivity.
  - exfalso. revert Hmin. rewrite app_assoc.
    apply min_escape_app_some. discriminate.
Qed.

End MarkerFacts.

(* ===================================================================== *)
(** ** Start-up: the saving directory, the connection, the translators *)
(* ===================================================================== *)

Section StartupFacts.

Context {D : QtSql} {E : Desktop D}.

Ltac run_process :=
  unfold bindN, retN, logN, lift, critical_box, QMessageBox_critical,
    dir_exists, dir_exists_entry, dir_mkdir, dir_cd, translator_load,
    installTranslator, db_connect, write_log;
  cbn [world files dialogs installed loads fst snd db calls log].

(** X13: [checkUserDirectory] succeeds exactly when the home directory
    exists, the saving folder is there or could be made, and the folder
    can be entered in the file system the call leaves. *)
Theorem checkUserDirectory_success (p : Process) :
  fst (checkUserDirectory p) = true
  <-> QDir_exists (files p) QDir_homePath = true
      /\ (QDir_exists_entry (files p) QDir_homePath BSM_SAVING_FOLDER = true
          \/ QDir_mkdir (files p) QDir_homePath BSM_SAVING_FOLDER <> None)
      /\ QDir_cd (files (snd (checkUserDirectory p))) QDir_homePath
           BSM_SAVING_FOLDER = true.
Proof.
  unfold checkUserDirectory. run_process.
  destruct (QDir_exists (files p) QDir_homePath); cbn [negb];
    [|run_process; split; [discriminate|intros [H _]; discriminate]].
  run_process.
  destruct (QDir_exists_entry (files p) QDir_homePath BSM_SAVING_FOLDER);
    cbn [negb]; run_process.
  - destruct (QDir_cd (files p) QDir_homePath BSM_SAVING_FOLDER) eqn:Hcd;
      cbn [negb]; run_process; rewrite ?Hcd; intuition congruence.
  - destruct (QDir_mkdir (files p) QDir_homePath BSM_SAVING_FOLDER)
      as [fs'|] eqn:Hmk; cbn [negb]; run_process.
    + destruct (QDir_cd fs' QDir_homePath BSM_SAVING_FOLDER) eqn:Hcd;
        cbn [negb]; run_process; rewrite ?Hcd; intuition congruence.
    + split; [discriminate|]. intros (_ & [H|H] & _); congruence.
Qed.

(** X14: every failure of [checkUserDirectory] is reported once: a false
    result comes with exactly one more critical dialog and a critical log
    line, a true result with no dialog. *)
Theorem checkUserDirectory_reports (p : Process) :
  (fst (checkUserDirectory p) = true ->
   dialogs (snd (checkUserDirectory p)) = dialogs p)
  /\ (fst (checkUserDirectory p) = false ->
      exists title text items,
        dialogs (snd (checkUserDirectory p))
        = (dialogs p ++ [((APP_TITLE ++ title)%string, text)])%list
        /\ In (LogCritical, items) (log (world (snd (checkUserDirectory p))))).
Proof.
  unfold checkUserDirectory. run_process.
  destruct (QDir_exists (files p) QDir_homePath); cbn [negb]; run_process.
  2:{ split; [discriminate|]. intros _. do 3 eexists. split; [reflexivity|].
      apply in_or_app. right. left. reflexivity. }
  destruct (QDir_exists_entry (files p) QDir_homePath BSM_SAVING_FOLDER);
    cbn [negb]; run_process.
  - destruct (QDir_cd (files p) QDir_homePath BSM_SAVING_FOLDER);
      cbn [negb]; run_process.
    + split; [reflexivity|discriminate].
    + split; [discriminate|]. intros _. do 3 eexists. split; [reflexivity|].
      apply in_or_app. right. left. reflexivity.
  - destruct (QDir_mkdir (files p) QDir_homePath BSM_SAVING_FOLDER)
      as [fs'|]; cbn [negb]; run_process.
    + destruct (QDir_cd fs' QDir_homePath BSM_SAVING_FOLDER);
        cbn [negb]; run_process.
      * split; [reflexivity|discriminate].
      * split; [discriminate|]. intros _. do 3 eexists.
        split; [reflexivity|]. apply in_or_app. right. left. reflexivity.
    + split; [discriminate|]. intros _. do 3 eexists. split; [reflexivity|].
      apply in_or_app. right. left. reflexivity.
Qed.

(** X15: [checkUserDirectory] touches the file system only to make the
    missing saving folder: the file system is left as it was, or it is the
    one [mkdir] returned for a folder that was not there; in particular an
    existing folder is never made again.  The database, the driver and the
    translators are not touched. *)
Theorem checkUserDirectory_makes_missing_folder_only (p : Process) :
  (files (snd (checkUserDirectory p)) = files p
   \/ (QDir_exists (files p) QDir_homePath = true
       /\ QDir_exists_entry (files p) QDir_homePath BSM_SAVING_FOLDER = false
       /\ QDir_mkdir (files p) QDir_homePath BSM_SAVING_FOLDER
          = Some (files (snd (checkUserDirectory p)))))
  /\ db (world (snd (checkUserDirectory p))) = db (world p)
  /\ calls (world (snd (checkUserDirectory p))) = calls (world p)
  /\ installed (snd (checkUserDirectory p)) = installed p
  /\ loads (snd (checkUserDirectory p)) = loads p.
Proof.
  unfold checkUserDirectory. run_process.
  destruct (QDir_exists (files p) QDir_homePath); cbn [negb]; run_process;
    [|repeat split; left; reflexivity].
  destruct (QDir_exists_entry (files p) QDir_homePath BSM_SAVING_FOLDER);
    cbn [negb]; run_process.
  - destruct (QDir_cd (files p) QDir_homePath BSM_SAVING_FOLDER);
      cbn [negb]; run_process; repeat split; left; reflexivity.
  - destruct (QDir_mkdir (files p) QDir_homePath BSM_SAVING_FOLDER)
      as [fs'|]; cbn [negb]; run_process.
    + destruct (QDir_cd fs' QDir_homePath BSM_SAVING_FOLDER);
        cbn [negb]; run_process; repeat split; right; repeat split.
    + repeat split; left; reflexivity.
Qed.

(** X16: [checkUserDirectory] can be called at every start: once it has
    succeeded, calling it again succeeds, makes no directory and shows no
    dialog (a directory that was made being there, and no directory being
    removed by making one). *)
Theorem checkUserDirectory_again (p : Process) :
  FileSystemLaws E ->
  fst (checkUserDirectory p) = true ->
  fst (checkUserDirectory (snd (checkUserDirectory p))) = true
  /\ files (snd (checkUserDirectory (snd (checkUserDirectory p))))
     = files (snd (checkUserDirectory p))
  /\ dialogs (snd (checkUserDirectory (snd (checkUserDirectory p))))
     = dialogs (snd (checkUserDirectory p)).
Proof.
  intros FL Hok.
  assert (Hpost : QDir_exists (files (snd (checkUserDirectory p))) QDir_homePath = true
                  /\ QDir_exists_entry (files (snd (checkUserDirectory p)))
                       QDir_homePath BSM_SAVING_FOLDER = true
                  /\ QDir_cd (files (snd (checkUserDirectory p)))
                       QDir_homePath BSM_SAVING_FOLDER = true).
  { revert Hok. unfold checkUserDirectory. run_process.
    destruct (QDir_exists (files p) QDir_homePath) eqn:Hhome; cbn [negb];
      run_process; [|discriminate].
    destruct (QDir_exists_entry (files p) QDir_homePath BSM_SAVING_FOLDER)
      eqn:Hentry; cbn [negb]; run_process.
    - destruct (QDir_cd (files p) QDir_homePath BSM_SAVING_FOLDER) eqn:Hcd;
        cbn [negb]; run_process; [auto|discriminate].
    - destruct (QDir_mkdir (files p) QDir_homePath BSM_SAVING_FOLDER)
        as [fs'|] eqn:Hmk; cbn [negb]; run_process; [|discriminate].
      destruct (QDir_cd fs' QDir_homePath BSM_SAVING_FOLDER) eqn:Hcd;
        cbn [negb]; run_process; [|discriminate].
      intros _. split; [exact (mkdir_keeps _ _ _ _ _ Hmk Hhome)|].
      split; [exact (mkdir_makes _ _ _ _ Hmk)|exact Hcd]. }
  destruct Hpost as (Hhome & Hentry & Hcd).
  set (p1 := snd (checkUserDirectory p)) in *.
  unfold checkUserDirectory. run_process.
  rewrite Hhome. cbn [negb]. run_process.
  rewrite Hentry. cbn [negb]. run_process.
  rewrite Hcd. cbn [negb]. run_process. repeat split.
Qed.

(** X17: [openDdAndCheckTables] returns true exactly when the database
    file was opened, the registry statement succeeded on that connection
    and [UserDataDB::createTable] succeeded after it. *)
Theorem openDdAndCheckTables_success (p : Process) :
  let w1 := mkWorld (snd (QSqlDatabase_connect database_path))
              (calls (world p))
              (log (world p) ++ [(LogDebug, ["DB in"; database_path])])%list in
  fst (openDdAndCheckTables p) = true
  <-> fst (QSqlDatabase_connect database_path) = true
      /\ fst (ensureVersionTable w1) = true
      /\ fst (UserDataDB_createTable (snd (ensureVersionTable w1))) = true.
Proof.
  cbv zeta. unfold openDdAndCheckTables. fold database_path. run_process.
  destruct (QSqlDatabase_connect database_path) as [[|] d]; cbn [negb fst snd];
    run_process; [|split; [discriminate|intros [H _]; discriminate]].
  match goal with |- context [ensureVersionTable ?w] =>
    destruct (ensureVersionTable w) as [[|] w2] end;
    cbn [negb fst snd]; run_process;
    [|split; [discriminate|intros (_ & H & _); discriminate]].
  destruct (UserDataDB_createTable w2) as [[|] w3]; cbn [negb fst snd app];
    run_process; intuition congruence.
Qed.

(** X18: every failure of [openDdAndCheckTables] is reported once: a false
    result comes with exactly one more critical dialog and a critical log
    line, a true result with none. *)
Theorem openDdAndCheckTables_reports (p : Process) :
  (fst (openDdAndCheckTables p) = true ->
   dialogs (snd (openDdAndCheckTables p)) = dialogs p)
  /\ (fst (openDdAndCheckTables p) = false ->
      exists title text items,
        dialogs (snd (openDdAndCheckTables p))
        = (dialogs p ++ [((APP_TITLE ++ title)%string, text)])%list
        /\ In (LogCritical, items) (log (world (snd (openDdAndCheckTables p))))).
Proof.
  unfold openDdAndCheckTables. run_process.
  destruct (QSqlDatabase_connect _) as [[|] d]; cbn [negb fst snd];
    run_process.
  2:{ split; [discriminate|]. intros _. do 3 eexists. split; [reflexivity|].
      apply in_or_app. right. left. reflexivity. }
  match goal with |- context [ensureVersionTable ?w] =>
    destruct (ensureVersionTable w) as [[|] w2] end;
    cbn [negb fst snd]; run_process.
  2:{ split; [discriminate|]. intros _. do 3 eexists. split; [reflexivity|].
      apply in_or_app. right. left. reflexivity. }
  destruct (UserDataDB_createTable w2) as [[|] w3]; cbn [negb fst snd app];
    run_process.
  - split; [reflexivity|discriminate].
  - split; [discriminate|]. intros _. do 3 eexists. split; [reflexivity|].
    apply in_or_app. right. left. reflexivity.
Qed.

(** X19: [openDdAndCheckTables] stops at the first step that fails: when
    the file cannot be opened nothing is handed to the driver, although the
    global connection has been replaced; when the registry statement fails
    [UserDataDB::createTable] is not run, the world being the one the
    statement left plus one critical line. *)
Theorem openDdAndCheckTables_stops_at_first_failure (p : Process) :
  let w1 := mkWorld (snd (QSqlDatabase_connect database_path))
              (calls (world p))
              (log (world p) ++ [(LogDebug, ["DB in"; database_path])])%list in
  (fst (QSqlDatabase_connect database_path) = false ->
   fst (openDdAndCheckTables p) = false
   /\ calls (world (snd (openDdAndCheckTables p))) = calls (world p)
   /\ db (world (snd (openDdAndCheckTables p)))
      = snd (QSqlDatabase_connect database_path))
  /\ (fst (QSqlDatabase_connect database_path) = true ->
      fst (ensureVersionTable w1) = false ->
      fst (openDdAndCheckTables p) = false
      /\ world (snd (openDdAndCheckTables p))
         = snd (write_log LogCritical ["Cannot create version table"]
                  (snd (ensureVersionTable w1)))).
Proof.
  cbv zeta. unfold openDdAndCheckTables. fold database_path. run_process.
  destruct (QSqlDatabase_connect database_path) as [[|] d]; cbn [negb fst snd];
    run_process.
  - split; [discriminate|]. intros _.
    match goal with |- context [ensureVersionTable ?w] =>
      destruct (ensureVersionTable w) as [[|] w2] end;
      cbn [negb fst snd]; run_process; [discriminate|].
    intros _. split; reflexivity.
  - split; [|discriminate]. intros _. repeat split.
Qed.

(** X20: for an English locale [loadTranslation] loads nothing and warns
    about nothing: it logs its one debug line and installs two empty
    translators. *)
Theorem loadTranslation_english (p : Process) :
  String.prefix "en" QLocale_system_name = true ->
  loads (snd (loadTranslation p)) = loads p
  /\ installed (snd (loadTranslation p)) = (installed p ++ [None; None])%list
  /\ log (world (snd (loadTranslation p)))
     = (log (world p)
          ++ [(LogDebug, ["Loading translation for"; QLocale_system_name])])%list.
Proof.
  intros Hen. unfold loadTranslation. run_process. rewrite Hen.
  cbn [negb]. run_process. rewrite <- app_assoc. repeat split.
Qed.

(** X21: [loadTranslation] always installs two translators, the one of Qt
    first; each holds the file of the configured directory when that load
    succeeds, else the file of the [translations] directory when that load
    succeeds, and is empty otherwise; the [translations] directory is
    tried only after the configured one has failed. *)
Theorem loadTranslation_fallback (p : Process) :
  let tried file dir := QTranslator_load file dir "_.-" in
  let pick file dir :=
    if String.prefix "en" QLocale_system_name then None
    else if tried file dir then Some (file, dir)
    else if tried file "translations" then Some (file, "translations")
    else None in
  let attempts file dir :=
    if String.prefix "en" QLocale_system_name then []
    else (file, dir, "_.-")
           :: (if tried file dir then [] else [(file, "translations", "_.-")]) in
  installed (snd (loadTranslation p))
  = (installed p
       ++ [pick ("qt_" ++ QLocale_system_name)%string QLibraryInfo_TranslationsPath;
           pick QLocale_system_name BSM_CFG_TRANSLATIONS_PATH])%list
  /\ loads (snd (loadTranslation p))
     = (loads p
          ++ attempts ("qt_" ++ QLocale_system_name)%string QLibraryInfo_TranslationsPath
          ++ attempts QLocale_system_name BSM_CFG_TRANSLATIONS_PATH)%list.
Proof.
  cbv zeta. unfold loadTranslation. run_process.
  destruct (String.prefix "en" QLocale_system_name); cbn [negb]; run_process.
  { rewrite <- !app_assoc, app_nil_r. split; reflexivity. }
  destruct (QTranslator_load ("qt_" ++ QLocale_system_name)
              QLibraryInfo_TranslationsPath "_.-"); cbn [negb]; run_process;
    [|destruct (QTranslator_load ("qt_" ++ QLocale_system_name)
                  "translations" "_.-"); cbn [negb]; run_process];
    (destruct (QTranslator_load QLocale_system_name
                 BSM_CFG_TRANSLATIONS_PATH "_.-"); cbn [negb]; run_process;
     [|destruct (QTranslator_load QLocale_system_name
                   "translations" "_.-"); cbn [negb]; run_process]);
    rewrite <- !app_assoc; split; reflexivity.
Qed.

(** X22: [loadTranslation] warns about a translation exactly when the
    locale is not English and both loads of that translation fail; it
    touches neither the database nor the file system and shows no
    dialog. *)
Theorem loadTranslation_warnings (p : Process) :
  let tried file dir := QTranslator_load file dir "_.-" in
  let missing file dir :=
    (negb (String.prefix "en" QLocale_system_name)
     && negb (tried file dir) && negb (tried file "translations"))%bool in
  log (world (snd (loadTranslation p)))
  = (log (world p)
       ++ [(LogDebug, ["Loading translation for"; QLocale_system_name])]
       ++ (if missing ("qt_" ++ QLocale_system_name)%string QLibraryInfo_TranslationsPath
           then [(LogWarning, ["Cannot load QT translation for"; QLocale_system_name])]
           else [])
       ++ (if missing QLocale_system_name BSM_CFG_TRANSLATIONS_PATH
           then [(LogWarning, ["Cannot load translation for"; QLocale_system_name])]
           else []))%list
  /\ db (world (snd (loadTranslation p))) = db (world p)
  /\ calls (world (snd (loadTranslation p))) = calls (world p)
  /\ files (snd (loadTranslation p)) = files p
  /\ dialogs (snd (loadTranslation p)) = dialogs p.
Proof.
  cbv zeta. unfold loadTranslation. run_process.
  destruct (String.prefix "en" QLocale_system_name); cbn [negb andb];
    run_process.
  { rewrite <- ?app_assoc; cbn [app]; repeat split. }
  destruct (QTranslator_load ("qt_" ++ QLocale_system_name)
              QLibraryInfo_TranslationsPath "_.-"); cbn [negb andb];
    run_process;
    [|destruct (QTranslator_load ("qt_" ++ QLocale_system_name)
                  "translations" "_.-"); cbn [negb andb]; run_process];
    (destruct (QTranslator_load QLocale_system_name
                 BSM_CFG_TRANSLATIONS_PATH "_.-"); cbn [negb andb];
     run_process;
     [|destruct (QTranslator_load QLocale_system_name
                   "translations" "_.-"); cbn [negb andb]; run_process]);
    rewrite <- ?app_assoc; cbn [app]; repeat split.
Qed.

End StartupFacts.

(* ===================================================================== *)
(** ** The further statements on the executable driver and desktop *)
(* ===================================================================== *)

Module ToyDeskFacts.

Import ToyDesk.

Lemma has_dir_added (fs : list string) (path other : string) :
  has_dir (fs ++ [path]) other
  = (has_dir fs other || String.eqb other path)%bool.
Proof.
  unfold has_dir. rewrite existsb_app. simpl. now rewrite orb_false_r.
Qed.

#[export] Instance fs_laws (locale : string) (openable : bool)
  : FileSystemLaws (desk locale openable).
Proof.
  constructor; cbn [QDir_mkdir QDir_exists QDir_exists_entry desk];
    unfold mkdir.
  - intros fs path name fs' H.
    destruct (has_dir fs path && negb (has_dir fs (file_path path name)))%bool;
      [|discriminate].
    injection H as <-. rewrite has_dir_added, String.eqb_refl.
    apply orb_true_r.
  - intros fs path name fs' other H Hother.
    destruct (has_dir fs path && negb (has_dir fs (file_path path name)))%bool;
      [|discriminate].
    injection H as <-. now rewrite has_dir_added, Hother.
Qed.

End ToyDeskFacts.

Module MoreExamples.

Import Toy ToyDesk.

Lemma user_data_well_formed : well_formed_columns user_data.
Proof.
  split.
  - repeat constructor.
  - repeat constructor; simpl; intuition discriminate.
Qed.

Lemma setTableVersion_frame_witness :
  (fst (setTableVersion "Measurements" 3 w_table) = true
   /\ "TablesVersions" <> "Measurements"
   /\ fst (getTableVersion "TablesVersions" w_versioned)
      = fst (getTableVersion "TablesVersions" w_table))
  /\ (fst (setTableVersion "Measurements" 3 fresh) = false
      /\ fst (getTableVersion "Measurements"
                (snd (setTableVersion "Measurements" 3 fresh)))
         = fst (getTableVersion "Measurements" fresh)).
Proof.
  destruct (@setTableVersion_frame driver ToyFacts.laws
              "Measurements" "TablesVersions" 3 w_table) as [T1 _].
  destruct (@setTableVersion_frame driver ToyFacts.laws
              "Measurements" "Measurements" 3 fresh) as [_ T2].
  split.
  - split; [reflexivity|]. split; [discriminate|].
    apply T1; [reflexivity|discriminate].
  - split; [reflexivity|]. apply T2. reflexivity.
Defined.

Lemma stale_version_revives_witness :
  fst (setTableVersion "Measurements" 3 w_table) = true
  /\ fst (dropTable "Measurements" w_versioned) = true
  /\ fst (getTableVersion "Measurements" w_dropped) = 0
  /\ fst (createTable "Measurements" measurements w_dropped) = true
  /\ fst (getTableVersion "Measurements"
            (snd (createTable "Measurements" measurements w_dropped))) = 3.
Proof.
  destruct (@stale_version_revives driver ToyFacts.laws
              "Measurements" measurements 3 w_table eq_refl
              ltac:(discriminate) Examples.measurements_well_formed
              ltac:(unfold int_range; lia) eq_refl eq_refl) as [T1 T2].
  split; [reflexivity|]. split; [reflexivity|]. split; [exact T1|].
  split; [reflexivity|]. apply T2. reflexivity.
Defined.

Lemma dropping_registry_forgets_witness :
  fst (dropTable VERSION_TABLE_NAME w_versioned) = true
  /\ fst (getTableVersion "Measurements"
            (snd (dropTable VERSION_TABLE_NAME w_versioned))) = -1
  /\ fst (setTableVersion "Measurements" 4
            (snd (dropTable VERSION_TABLE_NAME w_versioned))) = false.
Proof.
  split; [reflexivity|].
  apply (@dropping_registry_forgets driver ToyFacts.laws w_versioned
           "Measurements" 4).
  reflexivity.
Defined.

Lemma getTableVersion_wraps_witness :
  (registry_row (db w_versioned) "Measurements" = Some (QV_LongLong 3)
   /\ int_range 3
   /\ fst (getTableVersion "Measurements" w_versioned) = 3)
  /\ (registry_row (db w_large) "Measurements" = Some (QV_LongLong 3000000000)
      /\ 2 ^ 31 <= 3000000000 < 2 ^ 32
      /\ fst (getTableVersion "Measurements" w_large) = 3000000000 - 2 ^ 32).
Proof.
  destruct (@getTableVersion_wraps driver ToyFacts.laws
              "Measurements" 3 w_versioned eq_refl eq_refl eq_refl) as [T1 _].
  destruct (@getTableVersion_wraps driver ToyFacts.laws
              "Measurements" 3000000000 w_large eq_refl eq_refl eq_refl)
    as [_ T2].
  split.
  - split; [reflexivity|]. split; [unfold int_range; lia|].
    apply T1. unfold int_range. lia.
  - split; [reflexivity|]. split; [lia|]. apply T2. lia.
Defined.

Lemma ensureVersionTable_keeps_versions_witness :
  fst (ensureVersionTable w_versioned) = true
  /\ fst (isTablePresent "UserData" w_versioned) = false
  /\ fst (isTablePresent VERSION_TABLE_NAME (snd (ensureVersionTable w_versioned)))
     = true
  /\ fst (getTableVersion "UserData" (snd (ensureVersionTable w_versioned))) = 0
  /\ fst (getTableVersion "Measurements" (snd (ensureVersionTable w_versioned)))
     = fst (getTableVersion "Measurements" w_versioned).
Proof.
  assert (Hcase : forall t, In t (QSqlDatabase_tables (db w_versioned)) ->
                    Ident.upper t = Ident.upper VERSION_TABLE_NAME ->
                    t = VERSION_TABLE_NAME).
  { intros t [<-|[<-|[]]]; [reflexivity|discriminate]. }
  destruct (@ensureVersionTable_keeps_versions driver ToyFacts.laws
              "UserData" w_versioned eq_refl) as [T1 _].
  destruct (@ensureVersionTable_keeps_versions driver ToyFacts.laws
              "Measurements" w_versioned eq_refl) as [_ T3].
  destruct (T1 Hcase) as [Hreg Hzero].
  split; [reflexivity|]. split; [reflexivity|]. split; [exact Hreg|].
  split; [apply Hzero; [reflexivity|discriminate]|apply T3; reflexivity].
Defined.

Lemma created_table_is_unversioned_witness :
  fst (isTablePresent VERSION_TABLE_NAME w_registry) = true
  /\ registry_row (db w_registry) "Measurements" = None
  /\ fst (createTable "Measurements" measurements w_registry) = true
  /\ fst (getTableVersion "Measurements" w_table) = -1.
Proof.
  split; [reflexivity|]. split; [reflexivity|]. split; [reflexivity|].
  apply (@created_table_is_unversioned driver ToyFacts.laws
           "Measurements" measurements w_registry eq_refl
           Examples.measurements_well_formed eq_refl eq_refl eq_refl).
Defined.

Lemma isTablePresent_exact_match_witness :
  In "Measurements" (QSqlDatabase_tables (db w_table))
  /\ fst (isTablePresent "Measurements" w_table) = true
  /\ fst (isTablePresent "measurements" w_table) = false.
Proof.
  destruct (@isTablePresent_exact_match driver "Measurements" w_table)
    as [T1 _].
  destruct (@isTablePresent_exact_match driver "measurements" w_table)
    as [T2 _].
  split; [right; left; reflexivity|]. split.
  - apply T1. right. left. reflexivity.
  - apply not_true_is_false. intros H. apply T2 in H.
    simpl in H. intuition discriminate.
Defined.

Lemma getTableVersion_warns_iff_version_lost_witness :
  (fst (isTablePresent VERSION_TABLE_NAME fresh) = false
   /\ log (snd (getTableVersion "Measurements" fresh)) = log fresh)
  /\ (version_of_row (db w_versioned) "Measurements" = Some 3
      /\ fst (getTableVersion "Measurements" w_versioned) = 3
      /\ log (snd (getTableVersion "Measurements" w_versioned))
         = log w_versioned)
  /\ (version_of_row (db w_table) "Measurements" = None
      /\ fst (getTableVersion "Measurements" w_table) = -1
      /\ log (snd (getTableVersion "Measurements" w_table))
         = (log w_table
              ++ [(LogWarning, ["Cannot find version for table"; "Measurements"])])%list).
Proof.
  destruct (@getTableVersion_warns_iff_version_lost driver ToyFacts.laws
              "Measurements" fresh) as [T1 _].
  destruct (@getTableVersion_warns_iff_version_lost driver ToyFacts.laws
              "Measurements" w_versioned) as [_ T2].
  destruct (@getTableVersion_warns_iff_version_lost driver ToyFacts.laws
              "Measurements" w_table) as [_ T3].
  split; [split; [reflexivity|apply T1; left; reflexivity]|].
  split.
  - split; [reflexivity|].
    apply (proj1 (T2 eq_refl eq_refl) 3). reflexivity.
  - split; [reflexivity|].
    apply (proj2 (T3 eq_refl eq_refl)). reflexivity.
Defined.

Lemma setTableVersion_warns_after_statement_only_witness :
  (fst (setTableVersion "Measurements" 3 w_registry) = false
   /\ fst (isTablePresent "Measurements" w_registry) = false
   /\ log (snd (setTableVersion "Measurements" 3 w_registry)) = log w_registry)
  /\ (fst (setTableVersion "Measurements" 3 w_table) = true
      /\ log (snd (setTableVersion "Measurements" 3 w_table)) = log w_table).
Proof.
  destruct (@setTableVersion_warns_after_statement_only driver
              "Measurements" 3 w_registry) as [_ T2].
  destruct (@setTableVersion_warns_after_statement_only driver
              "Measurements" 3 w_table) as [T1 _].
  split.
  - split; [reflexivity|]. split; [reflexivity|].
    destruct (T2 eq_refl) as [Hiff _]. apply Hiff. right. reflexivity.
  - split; [reflexivity|]. apply T1. reflexivity.
Defined.

Lemma dropTable_failure_witness :
  fst (dropTable "my table" w_spaced) = false
  /\ fst (isTablePresent "my table" (snd (dropTable "my table" w_spaced))) = true
  /\ log (snd (dropTable "my table" w_spaced))
     = (log w_spaced ++ [(LogWarning, ["Cannot drop table"; "my table"])])%list.
Proof.
  destruct (@dropTable_failure driver "my table" w_spaced eq_refl)
    as (_ & _ & T3 & T4).
  split; [reflexivity|]. split; [exact T3|exact T4].
Defined.

Lemma registry_statements_fixed_witness :
  In (CallPrepare SELECT_VERSION_SQL)
    (new_calls w_versioned (snd (getTableVersion "Measurements" w_versioned)))
  /\ In (CallExec INSERT_VERSION_SQL (insert_bindings "Measurements" 3))
       (new_calls w_table (snd (setTableVersion "Measurements" 3 w_table)))
  /\ SELECT_VERSION_SQL = SELECT_VERSION_SQL
  /\ insert_bindings "Measurements" 3 = insert_bindings "Measurements" 3.
Proof.
  destruct (@registry_statements_fixed driver "Measurements" 3 w_versioned)
    as (T1 & _).
  destruct (@registry_statements_fixed driver "Measurements" 3 w_table)
    as (_ & _ & _ & T4).
  assert (H1 : In (CallPrepare SELECT_VERSION_SQL)
                 (new_calls w_versioned
                    (snd (getTableVersion "Measurements" w_versioned))))
    by (right; right; left; reflexivity).
  assert (H4 : In (CallExec INSERT_VERSION_SQL (insert_bindings "Measurements" 3))
                 (new_calls w_table
                    (snd (setTableVersion "Measurements" 3 w_table))))
    by (right; right; right; left; reflexivity).
  split; [exact H1|]. split; [exact H4|].
  split; [exact (T1 _ H1)|exact (proj2 (T4 _ _ H4))].
Defined.

Lemma checkUserDirectory_success_witness :
  has_dir ["/home/user"] "/home/user" = true
  /\ mkdir ["/home/user"] "/home/user" ".BeurerScaleManager"
     = Some ["/home/user"; "/home/user/.BeurerScaleManager"]
  /\ fst (checkUserDirectory (start "it_IT" true ["/home/user"])) = true.
Proof.
  split; [reflexivity|]. split; [reflexivity|].
  apply (@checkUserDirectory_success driver (desk "it_IT" true)
           (start "it_IT" true ["/home/user"])).
  split; [reflexivity|]. split; [right; discriminate|reflexivity].
Defined.

Lemma checkUserDirectory_reports_witness :
  fst (checkUserDirectory (start "it_IT" true [])) = false
  /\ exists title text items,
       dialogs (snd (checkUserDirectory (start "it_IT" true [])))
       = [((APP_TITLE ++ title)%string, text)]
       /\ In (LogCritical, items)
            (log (world (snd (checkUserDirectory (start "it_IT" true []))))).
Proof.
  split; [reflexivity|].
  destruct (@checkUserDirectory_reports driver (desk "it_IT" true)
              (start "it_IT" true [])) as [_ T2].
  exact (T2 eq_refl).
Defined.

Lemma checkUserDirectory_again_witness :
  fst (checkUserDirectory (start "it_IT" true ["/home/user"])) = true
  /\ fst (checkUserDirectory
            (snd (checkUserDirectory (start "it_IT" true ["/home/user"]))))
     = true
  /\ files (snd (checkUserDirectory
                   (snd (checkUserDirectory (start "it_IT" true ["/home/user"])))))
     = ["/home/user"; "/home/user/.BeurerScaleManager"].
Proof.
  destruct (@checkUserDirectory_again driver (desk "it_IT" true)
              (start "it_IT" true ["/home/user"])
              (ToyDeskFacts.fs_laws "it_IT" true) eq_refl) as (T1 & T2 & _).
  split; [reflexivity|]. split; [exact T1|]. rewrite T2. reflexivity.
Defined.

Lemma openDdAndCheckTables_success_witness :
  fst (QSqlDatabase_connect (Desktop := desk "it_IT" true)
          (database_path (E := desk "it_IT" true))) = true
  /\ fst (openDdAndCheckTables (start "it_IT" true ["/home/user"])) = true.
Proof.
  split; [reflexivity|].
  apply (@openDdAndCheckTables_success driver (desk "it_IT" true)
           (start "it_IT" true ["/home/user"])).
  split; [reflexivity|]. split; reflexivity.
Defined.

Lemma openDdAndCheckTables_reports_witness :
  fst (openDdAndCheckTables (start "it_IT" false ["/home/user"])) = false
  /\ exists title text items,
       dialogs (snd (openDdAndCheckTables (start "it_IT" false ["/home/user"])))
       = [((APP_TITLE ++ title)%string, text)]
       /\ In (LogCritical, items)
            (log (world (snd (openDdAndCheckTables
                                (start "it_IT" false ["/home/user"]))))).
Proof.
  split; [reflexivity|].
  destruct (@openDdAndCheckTables_reports driver (desk "it_IT" false)
              (start "it_IT" false ["/home/user"])) as [_ T2].
  exact (T2 eq_refl).
Defined.

Lemma openDdAndCheckTables_stops_at_first_failure_witness :
  (fst (QSqlDatabase_connect (Desktop := desk "it_IT" false)
          (database_path (E := desk "it_IT" false))) = false
   /\ calls (world (snd (openDdAndCheckTables
                           (start "it_IT" false ["/home/user"])))) = [])
  /\ (fst (QSqlDatabase_connect (Desktop := locked_desk)
          (database_path (E := locked_desk))) = true
      /\ fst (openDdAndCheckTables locked_start) = false
      /\ calls (world (snd (openDdAndCheckTables locked_start)))
         = [CallPrepare ENSURE_VERSION_TABLE_SQL]).
Proof.
  destruct (@openDdAndCheckTables_stops_at_first_failure driver
              (desk "it_IT" false) (start "it_IT" false ["/home/user"]))
    as [T1 _].
  destruct (@openDdAndCheckTables_stops_at_first_failure locked_driver
              locked_desk locked_start) as [_ T2].
  split.
  - split; [reflexivity|]. destruct (T1 eq_refl) as (_ & Hc & _). exact Hc.
  - split; [reflexivity|]. destruct (T2 eq_refl eq_refl) as [Hf Hw].
    split; [exact Hf|]. rewrite Hw. reflexivity.
Defined.

Lemma loadTranslation_english_witness :
  String.prefix "en" "en_US" = true
  /\ loads (snd (loadTranslation (start "en_US" true ["/home/user"]))) = []
  /\ installed (snd (loadTranslation (start "en_US" true ["/home/user"])))
     = [None; None].
Proof.
  destruct (@loadTranslation_english driver (desk "en_US" true)
              (start "en_US" true ["/home/user"]) eq_refl) as (T1 & T2 & _).
  split; [reflexivity|]. split; [exact T1|exact T2].
Defined.

End MoreExamples.
